(** * WirelessSensorNode: the firmware of [main.c], embedded and verified

    The firmware samples a temperature sensor, frames the reading in a
    packet, sends it Manchester-encoded over one output line and sleeps for
    a jittered interval.  Fixed-width C integers are modelled as [Z] with
    the wrap-around written out; the I/O registers are a register file
    [reg -> Z]; every externally visible action (register write, delay,
    sleep, interrupt, packet store) is appended to a log, so that ordering
    properties are statements about that log. *)

From Stdlib Require Import ZArith List Bool Lia.
Import ListNotations.

Local Open Scope Z_scope.

(** ** Fixed-width integers *)

(** Conversion to [uint8_t]. *)
Definition u8 (x : Z) : Z := x mod 256.

(** Conversion to [uint16_t]. *)
Definition u16 (x : Z) : Z := x mod 65536.

(** The AVR macro [_BV(n)], that is [1 << n]. *)
Definition _BV (n : Z) : Z := Z.shiftl 1 n.

(** C's logical negation [!x] on an integer. *)
Definition lnot_c (x : Z) : Z := if x =? 0 then 1 else 0.

Definition b2z (b : bool) : Z := if b then 1 else 0.

(** ** The entropy / jitter generator ([lfsr_state], [rand_byte], [mix_rand])

    Both functions touch nothing but the 16-bit global [lfsr_state], which
    is therefore passed explicitly. *)
Module LFSR.

(** The value the zero-guard of [rand_byte] reseeds with. *)
Definition SEED : Z := 0xDEAD.

(** One pass through the body of the [for] loop of [rand_byte]:
    [new_bit] is toggled once for every tap that is set, then the state is
    shifted left and [new_bit] is or-ed in. *)
Definition shift (s : Z) : Z :=
  let new_bit := 0 in
  let new_bit := if Z.land s (Z.shiftl 1 15) =? 0 then new_bit else lnot_c new_bit in
  let new_bit := if Z.land s (Z.shiftl 1 13) =? 0 then new_bit else lnot_c new_bit in
  let new_bit := if Z.land s (Z.shiftl 1 12) =? 0 then new_bit else lnot_c new_bit in
  let new_bit := if Z.land s (Z.shiftl 1 10) =? 0 then new_bit else lnot_c new_bit in
  let s := u16 (Z.shiftl s 1) in
  u16 (Z.lor s new_bit).

(** [for (uint8_t i = 8; i>0; i--) { ... }], counting down from [i]. *)
Fixpoint shift_loop (i : nat) (s : Z) : Z :=
  match i with
  | O => s
  | S i' => shift_loop i' (shift s)
  end.

(** [rand_byte]: returns the byte and the new [lfsr_state]. *)
Definition rand_byte (s : Z) : Z * Z :=
  let s := if s =? 0 then SEED else s in
  let s := shift_loop 8 s in
  (u8 s, s).

(** [mix_rand(x)]: returns the new [lfsr_state]. *)
Definition mix_rand (x : Z) (s : Z) : Z :=
  if Z.land x 1 =? 0 then s
  else
    let tmp := u8 (Z.shiftr (Z.land s (Z.shiftl 1 15)) 15) in
    let tmp2 := u8 (Z.shiftr (Z.land s (Z.shiftl 1 3)) 3) in
    if tmp =? tmp2 then s
    else
      let s := u16 (Z.lxor s (Z.shiftl 1 3)) in
      u16 (Z.lxor s (Z.shiftl 1 15)).

(** [n] successive calls of [rand_byte] with nothing in between: the bytes
    returned, in order, and the final state. *)
Fixpoint rand_bytes (n : nat) (s : Z) : list Z * Z :=
  match n with
  | O => ([], s)
  | S n' =>
      let '(b, s1) := rand_byte s in
      let '(bs, s2) := rand_bytes n' s1 in
      (b :: bs, s2)
  end.

(** *** The generator as the specification words it *)

(** The feedback bit: bits 15, 13, 12 and 10 of the register XORed. *)
Definition feedback (s : Z) : bool :=
  xorb (xorb (xorb (Z.testbit s 15) (Z.testbit s 13)) (Z.testbit s 12))
       (Z.testbit s 10).

(** One LFSR step: shift left by one within 16 bits, feedback bit inserted
    at the low end. *)
Definition step_spec (s : Z) : Z := (2 * s) mod 2 ^ 16 + b2z (feedback s).

(** The zero-guard. *)
Definition guard (s : Z) : Z := if s =? 0 then SEED else s.

(** [mix_entropy]: flip bits 15 and 3 when the sample's low bit is set and
    the two bits differ. *)
Definition flips (x s : Z) : bool :=
  Z.testbit x 0 && xorb (Z.testbit s 15) (Z.testbit s 3).

End LFSR.

(** ** The device: registers, packet, interrupts and the log *)

(** The I/O registers the sampler, the transmitter and the sleep scheduler
    write. *)
Inductive reg := PORTB | DDRB | ADMUX | ADCSRA | WDTCR.

Definition reg_eqb (a b : reg) : bool :=
  match a, b with
  | PORTB, PORTB | DDRB, DDRB | ADMUX, ADMUX | ADCSRA, ADCSRA
  | WDTCR, WDTCR => true
  | _, _ => false
  end.

(** Bit numbers.  The pin assignment is that of [main.c]; the register bits
    are those [avr/io.h] gives for the ATtiny13. *)
Definition TX_PIN : Z := 3.                 (* PB3 *)
Definition TEMP_SENSE_POWER_PIN : Z := 0.   (* PB0 *)
Definition RADIO_POWER_PIN : Z := 1.        (* PB1 *)
Definition TEMP_SENSE_INPUT_AN_PIN : Z := 2.
Definition REFS0 : Z := 6.
Definition ADEN : Z := 7.
Definition ADIE : Z := 3.
Definition WDTIE : Z := 6.

Definition NODE_ID : Z := 3.
Definition WDT_DURATION : Z := 2.   (* seconds *)
Definition SLEEP_TIME : Z := 234.   (* seconds *)

(** [HALF_BIT_DELAY_TIME_MILLIS] (0.5 ms) and the settle delay of
    [transmit] (0.1 ms), both in microseconds. *)
Definition HALF_BIT_DELAY_TIME_US : Z := 500.
Definition SETTLE_DELAY_US : Z := 100.

(** The fields of the packet struct, in the order of the wire frame. *)
Inductive field := NodeId | SeqNo | ReadingType | Reading | Checksum.

Record packet := mkPacket {
  node_id : Z;
  seq_no : Z;
  reading_type : Z;
  reading : Z;
  checksum : Z
}.

Definition set_field (f : field) (v : Z) (p : packet) : packet :=
  match f with
  | NodeId => mkPacket v (seq_no p) (reading_type p) (reading p) (checksum p)
  | SeqNo => mkPacket (node_id p) v (reading_type p) (reading p) (checksum p)
  | ReadingType => mkPacket (node_id p) (seq_no p) v (reading p) (checksum p)
  | Reading => mkPacket (node_id p) (seq_no p) (reading_type p) v (checksum p)
  | Checksum => mkPacket (node_id p) (seq_no p) (reading_type p) (reading p) v
  end.

(** The sleep modes [main.c] selects. *)
Inductive sleep_kind := SLEEP_MODE_IDLE | SLEEP_MODE_ADC | SLEEP_MODE_PWR_DOWN.

(** An interrupt request, as the hardware raises it: the converter has
    finished and latched [adcw] into the result register, or the watchdog
    timer has expired. *)
Inductive irq := IrqADC (adcw : Z) | IrqWDT.

Definition is_adc (i : irq) : bool :=
  match i with IrqADC _ => true | IrqWDT => false end.

(** What the device does, as seen from outside, in order. *)
Inductive event :=
| EvWrite (r : reg) (v : Z)       (* an I/O register is written *)
| EvDelay (us : Z) (tx : bool)    (* busy delay; [tx] is the TX bit of PORTB meanwhile *)
| EvSleep (m : sleep_kind)        (* [sleep_mode()]: the processor halts *)
| EvIrq (i : irq)                 (* an interrupt handler runs *)
| EvWdtReset                      (* [wdt_reset()] *)
| EvStore (f : field) (v : Z).    (* a packet field is written *)

Record state := mkState {
  regs : reg -> Z;            (* the 8-bit I/O registers *)
  ADCW : Z;                   (* the converter's 16-bit result register *)
  sleep_sel : sleep_kind;     (* the mode chosen by [set_sleep_mode] *)
  adc_done : Z;               (* [static volatile char adc_done] *)
  lfsr_state : Z;             (* [static uint16_t lfsr_state] *)
  manchester_packet : packet; (* [manchester_union.manchester_packet] *)
  irqs : list irq;            (* the interrupts still to come, in order *)
  log : list event
}.

Definition emit (e : event) (st : state) : state :=
  mkState (regs st) (ADCW st) (sleep_sel st) (adc_done st) (lfsr_state st)
          (manchester_packet st) (irqs st) (log st ++ [e]).

(** A write to an 8-bit I/O register. *)
Definition write (r : reg) (v : Z) (st : state) : state :=
  emit (EvWrite r (u8 v))
    (mkState (fun r' => if reg_eqb r' r then u8 v else regs st r')
             (ADCW st) (sleep_sel st) (adc_done st) (lfsr_state st)
             (manchester_packet st) (irqs st) (log st)).

Definition set_adc_done (v : Z) (st : state) : state :=
  mkState (regs st) (ADCW st) (sleep_sel st) v (lfsr_state st)
          (manchester_packet st) (irqs st) (log st).

Definition set_lfsr_state (v : Z) (st : state) : state :=
  mkState (regs st) (ADCW st) (sleep_sel st) (adc_done st) v
          (manchester_packet st) (irqs st) (log st).

Definition set_irqs (l : list irq) (st : state) : state :=
  mkState (regs st) (ADCW st) (sleep_sel st) (adc_done st) (lfsr_state st)
          (manchester_packet st) l (log st).

(** [set_sleep_mode(m)]. *)
Definition set_sleep_mode (m : sleep_kind) (st : state) : state :=
  mkState (regs st) (ADCW st) m (adc_done st) (lfsr_state st)
          (manchester_packet st) (irqs st) (log st).

(** An assignment to a field of [manchester_union.manchester_packet]. *)
Definition store (f : field) (v : Z) (st : state) : state :=
  emit (EvStore f v)
    (mkState (regs st) (ADCW st) (sleep_sel st) (adc_done st) (lfsr_state st)
             (set_field f v (manchester_packet st)) (irqs st) (log st)).

(** The TX bit of PORTB: the level the line has when it is an output. *)
Definition tx_level (st : state) : bool := Z.testbit (regs st PORTB) TX_PIN.

(** [_delay_ms]: the pins keep their state for [us] microseconds. *)
Definition delay_us (us : Z) (st : state) : state :=
  emit (EvDelay us (tx_level st)) st.

(** An interrupt is served: the hardware effect, then the handler.
    [ISR(ADC_vect)] sets [adc_done]; the watchdog handler is empty. *)
Definition serve (i : irq) (st : state) : state :=
  emit (EvIrq i)
    (match i with
     | IrqADC v =>
         mkState (regs st) (u16 v) (sleep_sel st) 1 (lfsr_state st)
                 (manchester_packet st) (irqs st) (log st)
     | IrqWDT => st
     end).

(** [sleep_mode()]: the processor halts in the selected mode until the next
    interrupt, serves it and goes on.  [None]: no interrupt ever comes. *)
Definition sleep_mode (st : state) : option state :=
  let st := emit (EvSleep (sleep_sel st)) st in
  match irqs st with
  | [] => None
  | i :: rest => Some (serve i (set_irqs rest st))
  end.

Notation "x <- a ;; b" :=
  (match a with Some x => b | None => None end)
  (at level 61, a at next level, right associativity).

(** ** The analog sampler *)

(** [while (!adc_done) { }]: the processor stays awake and re-reads the
    flag; the only thing that can change it is an interrupt being served,
    so the loop is unrolled along the interrupts still to come. *)
Fixpoint adc_wait (pending : list irq) (st : state) : option state :=
  if adc_done st =? 0 then
    match pending with
    | [] => None
    | i :: rest => adc_wait rest (serve i st)
    end
  else Some (set_irqs pending st).

Definition do_adc_conversion (st : state) : option state :=
  let st := set_adc_done 0 st in
  let st := set_sleep_mode SLEEP_MODE_ADC st in
  st <- sleep_mode st ;;
  st <- adc_wait (irqs st) st ;;
  Some (set_lfsr_state (LFSR.mix_rand (u8 (ADCW st)) (lfsr_state st)) st).

Definition read_temperature (st : state) : option (Z * state) :=
  (* Power up the temperature sensor. *)
  let st := write PORTB (Z.lor (regs st PORTB) (_BV TEMP_SENSE_POWER_PIN)) st in
  (* Configure the ADC. *)
  let st := write ADMUX (Z.lor (_BV REFS0) TEMP_SENSE_INPUT_AN_PIN) st in
  let st := write ADCSRA (Z.lor (Z.lor (_BV ADEN) (_BV ADIE)) 6) st in
  (* First conversion, discarded. *)
  st <- do_adc_conversion st ;;
  (* Second conversion. *)
  st <- do_adc_conversion st ;;
  let result := ADCW st in
  (* Disable ADC. *)
  let st := write ADCSRA (Z.land (regs st ADCSRA) (Z.lnot (_BV ADEN))) st in
  (* Power down the temp sensor. *)
  let st := write PORTB
              (Z.land (regs st PORTB) (Z.lnot (_BV TEMP_SENSE_POWER_PIN))) st in
  Some (result, st).

(** ** The sleep scheduler *)

(** [for (uint8_t i = 0; i < num_sleeps; ++i) sleep_mode();] with [n]
    passes still to go. *)
Fixpoint sleep_loop (n : nat) (st : state) : option state :=
  match n with
  | O => Some st
  | S n' => st <- sleep_mode st ;; sleep_loop n' st
  end.

(** The loop bound of [deep_sleep] for a given random byte. *)
Definition num_sleeps (rb : Z) : Z :=
  u8 (Z.quot SLEEP_TIME WDT_DURATION + Z.land rb 7).

Definition deep_sleep (st : state) : option state :=
  let st := set_sleep_mode SLEEP_MODE_PWR_DOWN st in
  let st := emit EvWdtReset st in
  let st := write WDTCR (Z.lor (regs st WDTCR) (_BV WDTIE)) st in
  let '(rb, s) := LFSR.rand_byte (lfsr_state st) in
  let st := set_lfsr_state s st in
  st <- sleep_loop (Z.to_nat (num_sleeps rb)) st ;;
  Some (write WDTCR (Z.land (regs st WDTCR) (Z.lnot (_BV WDTIE))) st).

(** ** The Manchester transmitter *)

(** The body of the loop of [transmit_byte]: the low bit of [b] is sent.
    [(char)_BV(TX_PIN)] is 8 and [(char)~_BV(TX_PIN)] is -9, all bits set
    but bit 3, which is [Z.lnot 8]. *)
Definition transmit_bit (b : Z) (st : state) : state :=
  let st :=
    if Z.land b 1 =? 0
    then (* a 0 bit: low then high *)
      write PORTB (Z.land (regs st PORTB) (Z.lnot (_BV TX_PIN))) st
    else (* a 1 bit: high then low *)
      write PORTB (Z.lor (regs st PORTB) (_BV TX_PIN)) st in
  let st := delay_us HALF_BIT_DELAY_TIME_US st in
  (* the other half of the bit *)
  let st := write PORTB (Z.lxor (regs st PORTB) (_BV TX_PIN)) st in
  delay_us HALF_BIT_DELAY_TIME_US st.

(** [for (char j = 0; j < 8; j++) { ...; b >>= 1; }] with [j] passes still
    to go. *)
Fixpoint transmit_bits (j : nat) (b : Z) (st : state) : state :=
  match j with
  | O => st
  | S j' => transmit_bits j' (Z.shiftr b 1) (transmit_bit b st)
  end.

Definition transmit_byte (b : Z) (st : state) : state :=
  transmit_bits 8 (u8 b) st.

(** [for (int i = 4; i > 0; i--) transmit_byte(0xFF);], counting down
    from [i]. *)
Fixpoint preamble_loop (i : nat) (st : state) : state :=
  match i with
  | O => st
  | S i' => preamble_loop i' (transmit_byte 0xFF st)
  end.

Section Transmit.

(** [sensor_node.h] is not part of the sources at hand; what the code
    takes from it is a parameter: the checksum function, the view of the
    packet struct as the byte array [manchester_data] of the union (its
    length is [sizeof(manchester_union)]), the tag [READING_TYPE_TEMP], and
    the conversion to the integer type of the field [seq_no]. *)
Variable calculate_checksum : packet -> Z.
Variable manchester_data : packet -> list Z.
Variable READING_TYPE_TEMP : Z.
Variable seq_no_t : Z -> Z.

(** [for (int i = 0; i < len; i++) transmit_byte(manchester_data[i]);]
    at index [i] with [todo = len - i] passes still to go; the byte is read
    from the union as it is at that moment. *)
Fixpoint data_loop (todo : nat) (i : nat) (st : state) : state :=
  match todo with
  | O => st
  | S todo' =>
      let b := nth i (manchester_data (manchester_packet st)) 0 in
      data_loop todo' (S i) (transmit_byte b st)
  end.

Definition transmit (st : state) : state :=
  (* Power up radio. *)
  let st := write PORTB (Z.lor (regs st PORTB) (_BV RADIO_POWER_PIN)) st in
  let st := write DDRB (Z.lor (regs st DDRB) (_BV TX_PIN)) st in
  let st := delay_us SETTLE_DELAY_US st in
  let st := store Checksum (calculate_checksum (manchester_packet st)) st in
  (* Transmit preamble. *)
  let st := preamble_loop 4 st in
  let st := transmit_byte 0x7F st in
  (* Transmit data. *)
  let len := length (manchester_data (manchester_packet st)) in
  let st := data_loop len 0 st in
  (* Generate one final transition. *)
  let st := write PORTB (Z.lxor (regs st PORTB) (_BV TX_PIN)) st in
  let st := delay_us HALF_BIT_DELAY_TIME_US st in
  (* Then disable the transmitter. *)
  let st := write PORTB (Z.land (regs st PORTB) (Z.lnot (_BV RADIO_POWER_PIN))) st in
  (* And tri-state the TX pin. *)
  let st := write DDRB (Z.land (regs st DDRB) (Z.lnot (_BV TX_PIN))) st in
  write PORTB (Z.land (regs st PORTB) (Z.lnot (_BV TX_PIN))) st.

(** The three phases of [transmit] on their own, for the proofs:
    [transmit] is [radio_power_down] after [send_frame] after the store of
    the checksum after [radio_power_up] (lemma [transmit_phases]). *)
Definition radio_power_up (st : state) : state :=
  let st := write PORTB (Z.lor (regs st PORTB) (_BV RADIO_POWER_PIN)) st in
  let st := write DDRB (Z.lor (regs st DDRB) (_BV TX_PIN)) st in
  delay_us SETTLE_DELAY_US st.

Definition final_transition (st : state) : state :=
  let st := write PORTB (Z.lxor (regs st PORTB) (_BV TX_PIN)) st in
  delay_us HALF_BIT_DELAY_TIME_US st.

Definition send_frame (st : state) : state :=
  let st := preamble_loop 4 st in
  let st := transmit_byte 0x7F st in
  let len := length (manchester_data (manchester_packet st)) in
  let st := data_loop len 0 st in
  final_transition st.

Definition radio_power_down (st : state) : state :=
  let st := write PORTB (Z.land (regs st PORTB) (Z.lnot (_BV RADIO_POWER_PIN))) st in
  let st := write DDRB (Z.land (regs st DDRB) (Z.lnot (_BV TX_PIN))) st in
  write PORTB (Z.land (regs st PORTB) (Z.lnot (_BV TX_PIN))) st.

(** ** The main control loop *)

(** The body of [while (1)] in [main]. *)
Definition main_loop_body (st : state) : option state :=
  let st := store NodeId NODE_ID st in
  let st := store SeqNo (seq_no_t (seq_no (manchester_packet st) + 1)) st in
  let st := store ReadingType READING_TYPE_TEMP st in
  r <- read_temperature st ;;
  let st := store Reading (fst r) (snd r) in
  let st := transmit st in
  deep_sleep st.

End Transmit.

(** ** The device after reset *)

(** All registers and statics are zero, nothing is logged yet, and the
    interrupts [pending] are still to come. *)
Definition power_on (pending : list irq) : state :=
  mkState (fun _ => 0) 0 SLEEP_MODE_IDLE 0 0 (mkPacket 0 0 0 0 0) pending [].

(** ** A packet layout for the examples

    The theorems hold for every layout and every checksum function; the two
    definitions below serve the concrete examples only. *)

(** Modelled from the spec: the byte array of the union declared in
    [sensor_node.h], which is not among the sources.  The fields follow in
    declaration order without padding: node id (one byte), sequence number
    (one byte here), reading type (one byte), reading (two bytes, low byte
    first), checksum (one byte). *)
Definition example_data (p : packet) : list Z :=
  [u8 (node_id p); u8 (seq_no p); u8 (reading_type p);
   u8 (reading p); u8 (reading p / 256); u8 (checksum p)].

(** Modelled from the spec: [calculate_checksum] of [sensor_node.h], which
    is not among the sources.  The specification asks for a fixed function
    of the bytes of node id, sequence number, reading type and reading and
    leaves the algorithm open; the byte sum stands for it. *)
Definition example_checksum (p : packet) : Z :=
  u8 (node_id p + seq_no p + reading_type p
      + u8 (reading p) + u8 (reading p / 256)).

(** ** Views of the log *)

(** The waveform: the delays of a run of events, each with its duration and
    the level of the TX bit meanwhile. *)
Fixpoint waveform (evs : list event) : list (Z * bool) :=
  match evs with
  | [] => []
  | EvDelay us tx :: r => (us, tx) :: waveform r
  | _ :: r => waveform r
  end.

(** How often the processor was put to sleep. *)
Fixpoint sleeps (evs : list event) : nat :=
  match evs with
  | [] => O
  | EvSleep _ :: r => S (sleeps r)
  | _ :: r => sleeps r
  end.

(** How many half-bit slots have gone by before the first write of the
    checksum field; [None] when it is never written. *)
Fixpoint half_bits_before_checksum (evs : list event) : option nat :=
  match evs with
  | [] => None
  | EvStore Checksum _ :: _ => Some O
  | EvDelay us _ :: r =>
      n <- half_bits_before_checksum r ;;
      Some (if us =? HALF_BIT_DELAY_TIME_US then S n else n)
  | _ :: r => half_bits_before_checksum r
  end.

(** The events of the passes of a sleep loop in mode [m] woken in turn by
    the interrupts [ws]. *)
Definition sleep_events (m : sleep_kind) (ws : list irq) : list event :=
  flat_map (fun i => [EvSleep m; EvIrq i]) ws.

(** Whether every interrupt served that is not the converter's is followed
    at once by a return to sleep: what a wait that goes back to sleep after
    a stray wake-up would log. *)
Fixpoint resleeps_after_stray_wake (evs : list event) : bool :=
  match evs with
  | [] => true
  | EvIrq IrqWDT :: r =>
      match r with
      | EvSleep _ :: _ => resleeps_after_stray_wake r
      | _ => false
      end
  | _ :: r => resleeps_after_stray_wake r
  end.

(** A run of half-bit slots: each slot is one write to PORTB followed by
    one half-bit delay during which the TX bit is as written. *)
Fixpoint is_slots (evs : list event) : bool :=
  match evs with
  | [] => true
  | EvWrite PORTB v :: EvDelay us tx :: r =>
      (us =? HALF_BIT_DELAY_TIME_US)
      && Bool.eqb (Z.testbit v TX_PIN) tx
      && is_slots r
  | _ => false
  end.

Definition is_store (e : event) : bool :=
  match e with EvStore _ _ => true | _ => false end.

(** Whether a run of events holds a write to a packet field. *)
Definition has_store (evs : list event) : bool := existsb is_store evs.

(** *** Manchester coding as the specification words it *)

(** A bit takes two half-bit slots: its own level, then the opposite. *)
Definition manchester_bit (bit : bool) : list (Z * bool) :=
  [(HALF_BIT_DELAY_TIME_US, bit); (HALF_BIT_DELAY_TIME_US, negb bit)].

(** A byte: its eight bits, least significant first. *)
Definition manchester_byte (b : Z) : list (Z * bool) :=
  flat_map (fun i => manchester_bit (Z.testbit b (Z.of_nat i))) (seq 0 8).

(** The frame: preamble, then the data bytes. *)
Definition PREAMBLE : list Z := [0xFF; 0xFF; 0xFF; 0xFF; 0x7F].

Definition manchester_frame (data : list Z) : list (Z * bool) :=
  flat_map manchester_byte (PREAMBLE ++ data).

(** The level of the last slot of a waveform, [d] if there is none. *)
Definition last_level (w : list (Z * bool)) (d : bool) : bool :=
  snd (last w (0, d)).

(** The checksum is written after the preamble has gone out: all the
    half-bit slots of the five preamble bytes lie before the write. *)
Definition checksum_stored_after_preamble (evs : list event) : Prop :=
  half_bits_before_checksum evs
  = Some (length (flat_map manchester_byte PREAMBLE)).

(** [st'] comes from [st] by the half-bit slots [evs] and nothing else:
    only the TX bit of PORTB may differ, and it is as the last slot left
    it. *)
Definition line_run (st st' : state) (evs : list event) : Prop :=
  log st' = log st ++ evs
  /\ is_slots evs = true
  /\ (forall r, r <> PORTB -> regs st' r = regs st r)
  /\ (forall k, 0 <= k < 8 -> k <> TX_PIN ->
      Z.testbit (regs st' PORTB) k = Z.testbit (regs st PORTB) k)
  /\ tx_level st' = last_level (waveform evs) (tx_level st)
  /\ manchester_packet st' = manchester_packet st
  /\ lfsr_state st' = lfsr_state st
  /\ irqs st' = irqs st.

(** ** Sequences of generator calls *)

(** What the firmware does to [lfsr_state]: [mix_rand(x)] from the sampler
    or [rand_byte()] from the sleep scheduler. *)
Inductive lfsr_op := OpMix (x : Z) | OpRand.

Definition run_op (o : lfsr_op) (s : Z) : Z :=
  match o with
  | OpMix x => LFSR.mix_rand x s
  | OpRand => snd (LFSR.rand_byte s)
  end.

(** The state after the calls [ops], made in order. *)
Fixpoint run_ops (ops : list lfsr_op) (s : Z) : Z :=
  match ops with
  | [] => s
  | o :: r => run_ops r (run_op o s)
  end.

(** ** Bit-level facts *)

Lemma land_pow2_eqb (s n : Z) :
  0 <= n -> (Z.land s (Z.shiftl 1 n) =? 0) = negb (Z.testbit s n).
Proof.
  intros Hn. rewrite Z.shiftl_1_l.
  destruct (Z.testbit s n) eqn:E; simpl.
  - apply Z.eqb_neq. intros H.
    assert (Z.testbit (Z.land s (2 ^ n)) n = true).
    { rewrite Z.land_spec, E, Z.pow2_bits_true; auto. }
    rewrite H, Z.bits_0 in H0. discriminate.
  - apply Z.eqb_eq. apply Z.bits_inj'. intros i Hi.
    rewrite Z.land_spec, Z.bits_0.
    destruct (Z.eq_dec i n) as [->|Hne].
    + rewrite E. reflexivity.
    + rewrite Z.pow2_bits_false by lia. apply andb_false_r.
Qed.

Lemma lor_even_bit (a : Z) (b : bool) : Z.lor (2 * a) (b2z b) = 2 * a + b2z b.
Proof.
  destruct b; simpl.
  - assert (H : Z.land (2 * a) 1 = 0).
    { pose proof (Z.land_ones (2 * a) 1) as L. change (Z.ones 1) with 1 in L.
      rewrite L by lia. change (2 ^ 1) with 2.
      rewrite Z.mul_comm. apply Z.mod_mul. lia. }
    rewrite <- Z.lxor_lor, <- Z.add_nocarry_lxor; auto.
  - rewrite Z.lor_0_r. lia.
Qed.

Lemma u16_shiftl_1 (s : Z) : u16 (Z.shiftl s 1) = 2 * (s mod 32768).
Proof.
  unfold u16. rewrite Z.shiftl_mul_pow2 by lia. change (2 ^ 1) with 2.
  rewrite (Z.mul_comm s 2). change 65536 with (2 * 32768).
  apply Zmult_mod_distr_l.
Qed.

Lemma shift_is_step_spec (s : Z) : LFSR.shift s = LFSR.step_spec s.
Proof.
  unfold LFSR.shift, LFSR.step_spec, LFSR.feedback.
  rewrite !land_pow2_eqb by lia. rewrite u16_shiftl_1.
  assert (B : forall b, u16 (Z.lor (2 * (s mod 32768)) (b2z b))
                        = (2 * s) mod 2 ^ 16 + b2z b).
  { intros b. rewrite lor_even_bit.
    change (2 ^ 16) with (2 * 32768). rewrite Zmult_mod_distr_l.
    apply Z.mod_small.
    assert (0 <= s mod 32768 < 32768) by (apply Z.mod_pos_bound; lia).
    unfold u16; destruct b; unfold b2z; lia. }
  destruct (Z.testbit s 15), (Z.testbit s 13), (Z.testbit s 12),
    (Z.testbit s 10); simpl; apply (B true) || apply (B false).
Qed.


Lemma testbit_u8 (x i : Z) :
  0 <= i -> Z.testbit (u8 x) i = (i <? 8) && Z.testbit x i.
Proof.
  intros Hi. unfold u8. change 256 with (2 ^ 8).
  destruct (Z.ltb_spec i 8); cbn [andb].
  - apply Z.mod_pow2_bits_low. lia.
  - apply Z.mod_pow2_bits_high. lia.
Qed.

Lemma testbit_u16 (x i : Z) :
  0 <= i -> Z.testbit (u16 x) i = (i <? 16) && Z.testbit x i.
Proof.
  intros Hi. unfold u16. change 65536 with (2 ^ 16).
  destruct (Z.ltb_spec i 16); cbn [andb].
  - apply Z.mod_pow2_bits_low. lia.
  - apply Z.mod_pow2_bits_high. lia.
Qed.

Lemma testbit_pow2 (n i : Z) :
  0 <= n -> Z.testbit (Z.shiftl 1 n) i = (i =? n).
Proof.
  intros Hn. rewrite Z.shiftl_1_l.
  destruct (Z.eqb_spec i n) as [->|Hne].
  - apply Z.pow2_bits_true; lia.
  - apply Z.pow2_bits_false; lia.
Qed.

Lemma testbit_high_16 (s i : Z) :
  0 <= s < 65536 -> 16 <= i -> Z.testbit s i = false.
Proof.
  intros Hs Hi. rewrite <- (Z.mod_small s (2 ^ 16)) by (change (2 ^ 16) with 65536; lia).
  apply Z.mod_pow2_bits_high. lia.
Qed.

Lemma testbit_b2z (b : bool) (i : Z) : Z.testbit (b2z b) i = b && (i =? 0).
Proof.
  destruct b; simpl.
  - destruct (Z.eqb_spec i 0) as [->|Hne]; [reflexivity|].
    destruct i; try congruence; reflexivity.
  - apply Z.bits_0.
Qed.

Lemma shiftr_land_pow2 (s n : Z) :
  0 <= n -> Z.shiftr (Z.land s (Z.shiftl 1 n)) n = b2z (Z.testbit s n).
Proof.
  intros Hn. apply Z.bits_inj'. intros i Hi.
  rewrite Z.shiftr_spec, Z.land_spec, testbit_pow2, testbit_b2z by lia.
  destruct (Z.eqb_spec i 0) as [->|Hne].
  - cbn [Z.add]. rewrite Z.eqb_refl. reflexivity.
  - replace (i + n =? n) with false by (symmetry; apply Z.eqb_neq; lia).
    rewrite !andb_false_r. reflexivity.
Qed.

Lemma u8_b2z (b : bool) : u8 (b2z b) = b2z b.
Proof. destruct b; reflexivity. Qed.

Lemma b2z_eqb (a b : bool) : (b2z a =? b2z b) = Bool.eqb a b.
Proof. destruct a, b; reflexivity. Qed.

Lemma land_1_eqb (x : Z) : (Z.land x 1 =? 0) = negb (Z.testbit x 0).
Proof. apply (land_pow2_eqb x 0). lia. Qed.

(** ** The entropy generator: properties *)

Lemma shift_loop_iter (i : nat) (s : Z) :
  LFSR.shift_loop i s = Nat.iter i LFSR.step_spec s.
Proof.
  revert s. induction i as [|i IH]; intros s.
  - reflexivity.
  - cbn [LFSR.shift_loop]. rewrite IH, shift_is_step_spec.
    symmetry. apply Nat.iter_succ_r.
Qed.

Lemma step_spec_range (s : Z) : 0 <= LFSR.step_spec s < 65536.
Proof.
  unfold LFSR.step_spec. change (2 ^ 16) with (2 * 32768).
  rewrite Zmult_mod_distr_l.
  assert (0 <= s mod 32768 < 32768) by (apply Z.mod_pos_bound; lia).
  destruct (LFSR.feedback s); unfold b2z; lia.
Qed.

Lemma step_spec_nonzero (s : Z) :
  0 < s < 65536 -> LFSR.step_spec s <> 0.
Proof.
  intros Hs E. unfold LFSR.step_spec in E.
  change (2 ^ 16) with (2 * 32768) in E. rewrite Zmult_mod_distr_l in E.
  assert (Hm : 0 <= s mod 32768 < 32768) by (apply Z.mod_pos_bound; lia).
  assert (Hf : LFSR.feedback s = false /\ s mod 32768 = 0).
  { destruct (LFSR.feedback s); unfold b2z in E; split; try reflexivity; lia. }
  destruct Hf as [Hf Hz].
  assert (s = 32768).
  { pose proof (Z_div_mod_eq_full s 32768). lia. }
  subst s. vm_compute in Hf. discriminate Hf.
Qed.

Lemma step_spec_iter_nonzero (k : nat) (s : Z) :
  0 < s < 65536 -> 0 < Nat.iter k LFSR.step_spec s < 65536.
Proof.
  intros Hs. induction k as [|k IH].
  - exact Hs.
  - rewrite Nat.iter_succ.
    pose proof (step_spec_range (Nat.iter k LFSR.step_spec s)).
    pose proof (step_spec_nonzero _ IH). lia.
Qed.

Lemma rand_byte_unfold (s : Z) :
  LFSR.rand_byte s
  = (u8 (Nat.iter 8 LFSR.step_spec (LFSR.guard s)),
     Nat.iter 8 LFSR.step_spec (LFSR.guard s)).
Proof.
  unfold LFSR.rand_byte, LFSR.guard. rewrite shift_loop_iter. reflexivity.
Qed.

(** C4: [rand_byte] first replaces a zero state by the constant 0xDEAD,
    then advances the state exactly eight times, each time shifting left by
    one within 16 bits and inserting the XOR of bits 15, 13, 12 and 10 at
    the low end, and returns the low eight bits of the resulting state. *)
Theorem rand_byte_advances_lfsr_eight_steps (s : Z) :
  LFSR.rand_byte s
  = (Nat.iter 8 LFSR.step_spec (LFSR.guard s) mod 2 ^ 8,
     Nat.iter 8 LFSR.step_spec (LFSR.guard s))
  /\ LFSR.shift s = LFSR.step_spec s
  /\ LFSR.guard 0 = 0xDEAD
  /\ LFSR.guard s <> 0.
Proof.
  split; [rewrite rand_byte_unfold; reflexivity|].
  split; [apply shift_is_step_spec|].
  split; [reflexivity|].
  unfold LFSR.guard. destruct (Z.eqb_spec s 0); [discriminate|assumption].
Qed.

Lemma rand_bytes_state (n : nat) (s : Z) :
  0 < s < 65536 ->
  snd (LFSR.rand_bytes n s) = Nat.iter (8 * n) LFSR.shift s.
Proof.
  revert s. induction n as [|n IH]; intros s Hs.
  - reflexivity.
  - cbn [LFSR.rand_bytes]. rewrite rand_byte_unfold.
    assert (G : LFSR.guard s = s).
    { unfold LFSR.guard. destruct (Z.eqb_spec s 0); [lia|reflexivity]. }
    rewrite G.
    destruct (LFSR.rand_bytes n (Nat.iter 8 LFSR.step_spec s)) as [bs s2] eqn:E.
    cbn [snd].
    assert (E2 : s2 = snd (LFSR.rand_bytes n (Nat.iter 8 LFSR.step_spec s)))
      by (rewrite E; reflexivity).
    rewrite E2, IH by (apply step_spec_iter_nonzero; exact Hs).
    replace (8 * S n)%nat with (8 * n + 8)%nat by lia.
    rewrite Nat.iter_add. f_equal.
    clear. generalize 8%nat. intros k. induction k as [|k IHk].
    + reflexivity.
    + rewrite !Nat.iter_succ, IHk. symmetry. apply shift_is_step_spec.
Qed.

Lemma shift_iter_nonzero (k : nat) (s : Z) :
  0 < s < 65536 -> 0 < Nat.iter k LFSR.shift s < 65536.
Proof.
  intros Hs. induction k as [|k IH].
  - exact Hs.
  - rewrite Nat.iter_succ, shift_is_step_spec.
    pose proof (step_spec_range (Nat.iter k LFSR.shift s)).
    pose proof (step_spec_nonzero _ IH). lia.
Qed.

(** C5: from a non-zero 16-bit state one shift step of the LFSR gives a
    non-zero state; so no number of shift steps reaches zero, the state
    after [n] calls of [rand_byte] is the state after [8 * n] shift steps
    (the zero-guard never fires), and it is not zero, for 256 calls as for
    any other number. *)
Theorem lfsr_never_reaches_zero (s : Z) :
  0 < s < 65536 ->
  LFSR.shift s <> 0
  /\ (forall k, Nat.iter k LFSR.shift s <> 0)
  /\ (forall n, snd (LFSR.rand_bytes n s) = Nat.iter (8 * n) LFSR.shift s
                /\ snd (LFSR.rand_bytes n s) <> 0)
  /\ snd (LFSR.rand_bytes 256 s) <> 0.
Proof.
  intros Hs.
  assert (K : forall k, Nat.iter k LFSR.shift s <> 0).
  { intros k. pose proof (shift_iter_nonzero k s Hs). lia. }
  assert (N : forall n, snd (LFSR.rand_bytes n s) = Nat.iter (8 * n) LFSR.shift s
                /\ snd (LFSR.rand_bytes n s) <> 0).
  { intros n. rewrite rand_bytes_state by exact Hs. split; [reflexivity|apply K]. }
  split; [exact (K 1%nat)|].
  split; [exact K|].
  split; [exact N|].
  apply N.
Qed.

Lemma lfsr_never_reaches_zero_witness :
  0 < 0xDEAD < 65536 /\ snd (LFSR.rand_bytes 256 0xDEAD) <> 0.
Proof.
  split; [lia|].
  apply (lfsr_never_reaches_zero 0xDEAD). lia.
Defined.

Lemma mix_rand_unfold (x s : Z) :
  0 <= s < 65536 ->
  LFSR.mix_rand x s = if LFSR.flips x s then Z.lxor s 0x8008 else s.
Proof.
  intros Hs. unfold LFSR.mix_rand, LFSR.flips.
  rewrite land_1_eqb, !shiftr_land_pow2, !u8_b2z, b2z_eqb by lia.
  destruct (Z.testbit x 0); cbn [negb andb]; [|reflexivity].
  destruct (Z.testbit s 15) eqn:E15, (Z.testbit s 3) eqn:E3;
    cbn [Bool.eqb xorb]; try reflexivity.
  all: apply Z.bits_inj'; intros i Hi;
    rewrite testbit_u16, Z.lxor_spec, testbit_u16, !Z.lxor_spec by lia;
    rewrite !testbit_pow2 by lia;
    change 0x8008 with (Z.lor (Z.shiftl 1 3) (Z.shiftl 1 15));
    rewrite Z.lor_spec, !testbit_pow2 by lia;
    destruct (Z.ltb_spec i 16); cbn [andb];
    [ destruct (Z.eqb_spec i 3), (Z.eqb_spec i 15); try lia;
      destruct (Z.testbit s i); reflexivity
    | rewrite (testbit_high_16 s i) by lia;
      destruct (Z.eqb_spec i 3), (Z.eqb_spec i 15); try lia; reflexivity ].
Qed.

Lemma mix_rand_bits (x s i : Z) :
  0 <= s < 65536 ->
  Z.testbit (LFSR.mix_rand x s) i
  = if LFSR.flips x s && ((i =? 3) || (i =? 15))
    then negb (Z.testbit s i) else Z.testbit s i.
Proof.
  intros Hs. rewrite mix_rand_unfold by exact Hs.
  destruct (LFSR.flips x s); cbn [andb]; [|reflexivity].
  change 0x8008 with (Z.lor (Z.shiftl 1 3) (Z.shiftl 1 15)).
  destruct (Z.ltb_spec i 0) as [Hneg|Hi].
  - rewrite !Z.testbit_neg_r by lia.
    destruct (Z.eqb_spec i 3), (Z.eqb_spec i 15); try lia; reflexivity.
  - rewrite Z.lxor_spec, Z.lor_spec, !testbit_pow2 by lia.
    destruct (i =? 3), (i =? 15), (Z.testbit s i); reflexivity.
Qed.

(** C6: [mix_rand] leaves the state as it is when the low bit of the
    sample is clear; when it is set, bits 15 and 3 of the state are
    compared and both are flipped exactly when they differ; every other
    bit keeps its value in all cases. *)
Theorem mix_rand_flips_bits_15_and_3_when_they_differ (x s : Z) :
  0 <= s < 65536 ->
  (Z.testbit x 0 = false -> LFSR.mix_rand x s = s)
  /\ (Z.testbit x 0 = true -> Z.testbit s 15 = Z.testbit s 3 ->
      LFSR.mix_rand x s = s)
  /\ (Z.testbit x 0 = true -> Z.testbit s 15 <> Z.testbit s 3 ->
      Z.testbit (LFSR.mix_rand x s) 15 = negb (Z.testbit s 15)
      /\ Z.testbit (LFSR.mix_rand x s) 3 = negb (Z.testbit s 3))
  /\ (forall i, i <> 3 -> i <> 15 ->
      Z.testbit (LFSR.mix_rand x s) i = Z.testbit s i)
  /\ LFSR.mix_rand x s
     = if Z.testbit x 0 && xorb (Z.testbit s 15) (Z.testbit s 3)
       then Z.lxor s 0x8008 else s.
Proof.
  intros Hs.
  pose proof (mix_rand_unfold x s Hs) as U. unfold LFSR.flips in U.
  repeat split.
  - intros H0. rewrite U, H0. reflexivity.
  - intros H0 E. rewrite U, H0, E, xorb_nilpotent. reflexivity.
  - rewrite mix_rand_bits by exact Hs. unfold LFSR.flips.
    rewrite H. destruct (Z.testbit s 15), (Z.testbit s 3); try reflexivity;
      congruence.
  - rewrite mix_rand_bits by exact Hs. unfold LFSR.flips.
    rewrite H. destruct (Z.testbit s 15), (Z.testbit s 3); try reflexivity;
      congruence.
  - intros i H3 H15. rewrite mix_rand_bits by exact Hs.
    destruct (Z.eqb_spec i 3), (Z.eqb_spec i 15); try lia.
    rewrite andb_false_r. reflexivity.
  - exact U.
Qed.

Lemma mix_rand_flips_bits_15_and_3_when_they_differ_witness :
  0 <= 0x8001 < 65536 /\ LFSR.mix_rand 0xFF 0x8001 = 0x0009.
Proof.
  split; [lia|].
  destruct (mix_rand_flips_bits_15_and_3_when_they_differ 0xFF 0x8001)
    as (_ & _ & _ & _ & E); [lia|].
  rewrite E. reflexivity.
Defined.

(** C10: [mix_rand] keeps a non-zero state non-zero: bits 15 and 3 are
    flipped only when they differ, and then exactly one of them is set
    afterwards. *)
Theorem mix_rand_preserves_nonzero (x s : Z) :
  0 <= s < 65536 -> s <> 0 ->
  LFSR.mix_rand x s <> 0
  /\ (LFSR.mix_rand x s <> s ->
      xorb (Z.testbit (LFSR.mix_rand x s) 15)
           (Z.testbit (LFSR.mix_rand x s) 3) = true).
Proof.
  intros Hs Hnz.
  assert (F : LFSR.flips x s = true ->
              xorb (Z.testbit (LFSR.mix_rand x s) 15)
                   (Z.testbit (LFSR.mix_rand x s) 3) = true).
  { intros Hf. rewrite !mix_rand_bits by exact Hs. rewrite Hf.
    cbn [andb Z.eqb Pos.eqb orb].
    unfold LFSR.flips in Hf. apply andb_prop in Hf. destruct Hf as [_ Hx].
    destruct (Z.testbit s 15), (Z.testbit s 3); try discriminate; reflexivity. }
  pose proof (mix_rand_unfold x s Hs) as U.
  destruct (LFSR.flips x s) eqn:Hf.
  - split; [|intros _; apply F; reflexivity].
    intros E. specialize (F eq_refl). rewrite E, !Z.bits_0 in F. discriminate.
  - rewrite U. split; [exact Hnz|congruence].
Qed.

Lemma mix_rand_preserves_nonzero_witness :
  0 <= 0x0008 < 65536 /\ 0x0008 <> 0 /\ LFSR.mix_rand 1 0x0008 <> 0.
Proof.
  split; [lia|]. split; [lia|].
  apply (mix_rand_preserves_nonzero 1 0x0008); lia.
Defined.

(** ** The sleep scheduler: properties *)

(** Unfolds the state updates and reduces the projections of the results. *)
Ltac st_simpl :=
  unfold serve, delay_us, tx_level, store, write, emit, set_adc_done,
    set_lfsr_state, set_irqs, set_sleep_mode in *;
  cbn [regs ADCW sleep_sel adc_done lfsr_state manchester_packet irqs log]
    in *.

Lemma land_7_range (rb : Z) : 0 <= Z.land rb 7 <= 7.
Proof.
  change (Z.land rb 7) with (Z.land rb (Z.ones 3)). rewrite Z.land_ones by lia.
  change (2 ^ 3) with 8.
  pose proof (Z.mod_pos_bound rb 8). lia.
Qed.

Lemma num_sleeps_value (rb : Z) : num_sleeps rb = 117 + Z.land rb 7.
Proof.
  unfold num_sleeps, u8. change (Z.quot SLEEP_TIME WDT_DURATION) with 117.
  pose proof (land_7_range rb). apply Z.mod_small. lia.
Qed.

Lemma sleeps_app (a b : list event) : sleeps (a ++ b) = (sleeps a + sleeps b)%nat.
Proof.
  induction a as [|e a IH]; [reflexivity|].
  destruct e; cbn [sleeps app]; rewrite IH; reflexivity.
Qed.

Lemma sleeps_sleep_events (m : sleep_kind) (ws : list irq) :
  sleeps (sleep_events m ws) = length ws.
Proof.
  induction ws as [|i ws IH]; [reflexivity|].
  change (sleep_events m (i :: ws))
    with (EvSleep m :: EvIrq i :: sleep_events m ws).
  cbn [sleeps length]. rewrite IH. reflexivity.
Qed.

Lemma sleep_loop_runs (n : nat) (st : state) :
  (n <= length (irqs st))%nat ->
  exists st',
    sleep_loop n st = Some st'
    /\ log st' = log st ++ sleep_events (sleep_sel st) (firstn n (irqs st))
    /\ irqs st' = skipn n (irqs st)
    /\ regs st' = regs st
    /\ lfsr_state st' = lfsr_state st
    /\ manchester_packet st' = manchester_packet st.
Proof.
  revert st. induction n as [|n IH]; intros st Hn.
  - exists st. cbn. rewrite app_nil_r. repeat split.
  - destruct st as [rg aw sl ad lf pk iq lg]. cbn [irqs] in Hn.
    destruct iq as [|i iq]; [cbn in Hn; lia|].
    cbn [length] in Hn.
    cbn [sleep_loop sleep_mode emit irqs regs ADCW sleep_sel adc_done
         lfsr_state manchester_packet log set_irqs].
    destruct (IH (serve i (mkState rg aw sl ad lf pk iq (lg ++ [EvSleep sl]))))
      as (st' & R & L & I & G & F & P).
    { destruct i; cbn; lia. }
    exists st'. split; [exact R|].
    rewrite L, I, G, F, P.
    destruct i; cbn; rewrite <- !app_assoc; repeat split.
Qed.

(** C7: for every random byte the loop bound of [deep_sleep] is
    [234 / 2 + (rb & 7) = 117 + (rb & 7)], which lies between 117 and 124;
    with the byte [rb] that [rand_byte] returns, [deep_sleep] puts the
    processor into the power-down mode exactly that many times, once per
    interrupt that wakes it, between enabling and disabling the watchdog
    interrupt. *)
Theorem deep_sleep_iteration_count (st : state) :
  let rb := fst (LFSR.rand_byte (lfsr_state st)) in
  let n := SLEEP_TIME / WDT_DURATION + Z.land rb 7 in
  (Z.to_nat n <= length (irqs st))%nat ->
  (forall b, num_sleeps b = SLEEP_TIME / WDT_DURATION + Z.land b 7
             /\ 0 <= Z.land b 7 <= 7)
  /\ num_sleeps rb = n
  /\ SLEEP_TIME / WDT_DURATION = 117
  /\ SLEEP_TIME / WDT_DURATION <= n <= SLEEP_TIME / WDT_DURATION + 7
  /\ exists st' v_on v_off,
       deep_sleep st = Some st'
       /\ log st' = log st
                    ++ [EvWdtReset; EvWrite WDTCR v_on]
                    ++ sleep_events SLEEP_MODE_PWR_DOWN
                         (firstn (Z.to_nat n) (irqs st))
                    ++ [EvWrite WDTCR v_off]
       /\ sleeps (sleep_events SLEEP_MODE_PWR_DOWN
                    (firstn (Z.to_nat n) (irqs st))) = Z.to_nat n
       /\ irqs st' = skipn (Z.to_nat n) (irqs st)
       /\ lfsr_state st' = snd (LFSR.rand_byte (lfsr_state st)).
Proof.
  intros rb n Hn.
  assert (Hv : num_sleeps rb = n) by apply num_sleeps_value.
  pose proof (land_7_range rb) as Hr.
  change (SLEEP_TIME / WDT_DURATION) with 117 in *.
  split; [intros b; split; [apply num_sleeps_value|apply land_7_range]|].
  split; [exact Hv|]. split; [reflexivity|]. split; [lia|].
  unfold deep_sleep. st_simpl.
  destruct (LFSR.rand_byte (lfsr_state st)) as [rb' s'] eqn:E.
  cbn [fst] in rb. fold rb. rewrite Hv.
  match goal with
  | |- context [sleep_loop _ ?s] =>
      destruct (sleep_loop_runs (Z.to_nat n) s Hn)
        as (st' & R & L & I & G & F & P)
  end.
  rewrite R. st_simpl.
  eexists. eexists. eexists. split; [reflexivity|].
  st_simpl. rewrite L, I, F. rewrite <- !app_assoc. cbn [app].
  split; [reflexivity|].
  split; [|split; reflexivity].
  rewrite sleeps_sleep_events, length_firstn. lia.
Qed.

Lemma deep_sleep_iteration_count_witness :
  exists st',
    deep_sleep (power_on (repeat IrqWDT 124)) = Some st'.
Proof.
  destruct (deep_sleep_iteration_count (power_on (repeat IrqWDT 124)))
    as (_ & _ & _ & _ & st' & _ & _ & R & _).
  - apply Nat.leb_le. vm_compute. reflexivity.
  - exists st'. exact R.
Defined.

(** ** The analog sampler: properties *)

Lemma adc_wait_done (pending : list irq) (st : state) :
  adc_done st <> 0 -> adc_wait pending st = Some (set_irqs pending st).
Proof.
  intros H. apply Z.eqb_neq in H.
  destruct pending; cbn [adc_wait]; rewrite H; reflexivity.
Qed.

Lemma adc_wait_completes (pre : list irq) (v : Z) (rest : list irq) (st : state) :
  existsb is_adc pre = false ->
  adc_done st = 0 ->
  adc_wait (pre ++ IrqADC v :: rest) st
  = Some (mkState (regs st) (u16 v) (sleep_sel st) 1 (lfsr_state st)
                  (manchester_packet st) rest
                  (log st ++ map EvIrq (pre ++ [IrqADC v]))).
Proof.
  revert st. induction pre as [|i pre IH]; intros st Hpre Hd.
  - cbn [app adc_wait]. rewrite Hd. cbn [Z.eqb].
    rewrite adc_wait_done by (cbn; lia). reflexivity.
  - cbn [existsb] in Hpre. apply orb_false_elim in Hpre.
    destruct Hpre as [Hi Hpre]. destruct i; [discriminate Hi|].
    cbn [app adc_wait]. rewrite Hd. cbn [Z.eqb].
    rewrite IH by (assumption || exact Hd). st_simpl.
    st_simpl. cbn [map]. rewrite <- app_assoc. reflexivity.
Qed.

Lemma adc_wait_starves (pending : list irq) (st : state) :
  existsb is_adc pending = false ->
  adc_done st = 0 ->
  adc_wait pending st = None.
Proof.
  revert st. induction pending as [|i pending IH]; intros st Hp Hd.
  - cbn [adc_wait]. rewrite Hd. reflexivity.
  - cbn [existsb] in Hp. apply orb_false_elim in Hp. destruct Hp as [Hi Hp].
    destruct i; [discriminate Hi|].
    cbn [adc_wait]. rewrite Hd. cbn [Z.eqb]. apply IH; [exact Hp|exact Hd].
Qed.

Lemma adc_wait_flag (pending : list irq) (st st' : state) :
  adc_wait pending st = Some st' -> adc_done st' <> 0.
Proof.
  revert st. induction pending as [|i pending IH]; intros st H;
    cbn [adc_wait] in H; destruct (Z.eqb_spec (adc_done st) 0) as [E|E].
  - discriminate H.
  - injection H as <-. exact E.
  - exact (IH _ H).
  - injection H as <-. exact E.
Qed.

Lemma do_adc_conversion_completes
      (pre : list irq) (v : Z) (rest : list irq) (st : state) :
  existsb is_adc pre = false ->
  irqs st = pre ++ IrqADC v :: rest ->
  do_adc_conversion st
  = Some (mkState (regs st) (u16 v) SLEEP_MODE_ADC 1
                  (LFSR.mix_rand (u8 (u16 v)) (lfsr_state st))
                  (manchester_packet st) rest
                  (log st ++ EvSleep SLEEP_MODE_ADC
                          :: map EvIrq (pre ++ [IrqADC v]))).
Proof.
  intros Hpre Hi. unfold do_adc_conversion, sleep_mode. st_simpl.
  rewrite Hi. destruct pre as [|i pre].
  - cbn [app]. st_simpl.
    rewrite adc_wait_done by (cbn; lia). st_simpl.
    cbn [map app]. rewrite <- app_assoc. reflexivity.
  - cbn [existsb] in Hpre. apply orb_false_elim in Hpre.
    destruct Hpre as [Hw Hpre]. destruct i; [discriminate Hw|].
    cbn [app]. st_simpl.
    rewrite adc_wait_completes by (assumption || reflexivity). st_simpl.
    cbn [map app]. rewrite <- !app_assoc. reflexivity.
Qed.

(** C9, as the code has it: the converter's wait puts the processor to
    sleep once; when an interrupt other than the converter's wakes it, it
    stays awake and polls its completion flag, serving the interrupts that
    come, and goes on only once the flag is set.  It never goes on with the
    flag unset, and never returns when no conversion-complete interrupt
    comes. *)
Theorem do_adc_conversion_sleeps_once_then_polls
        (pre : list irq) (v : Z) (rest : list irq) (st : state) :
  existsb is_adc pre = false ->
  irqs st = pre ++ IrqADC v :: rest ->
  (exists st',
      do_adc_conversion st = Some st'
      /\ log st' = log st ++ EvSleep SLEEP_MODE_ADC
                           :: map EvIrq (pre ++ [IrqADC v])
      /\ sleeps (EvSleep SLEEP_MODE_ADC :: map EvIrq (pre ++ [IrqADC v])) = 1%nat
      /\ adc_done st' = 1
      /\ irqs st' = rest)
  /\ (forall s s', do_adc_conversion s = Some s' -> adc_done s' <> 0)
  /\ (forall s, existsb is_adc (irqs s) = false -> do_adc_conversion s = None).
Proof.
  intros Hpre Hi. split; [|split].
  - eexists. split; [apply (do_adc_conversion_completes pre v rest st Hpre Hi)|].
    st_simpl. split; [reflexivity|]. split; [|split; reflexivity].
    cbn [sleeps]. f_equal. generalize (pre ++ [IrqADC v]).
    intros l. induction l as [|i l IH]; [reflexivity|exact IH].
  - intros s s' H. unfold do_adc_conversion in H.
    destruct (sleep_mode _) as [s1|]; [|discriminate H].
    destruct (adc_wait (irqs s1) s1) as [s2|] eqn:W; [|discriminate H].
    injection H as <-. st_simpl. exact (adc_wait_flag _ _ _ W).
  - intros s Hs. unfold do_adc_conversion, sleep_mode. st_simpl.
    destruct (irqs s) as [|i l]; [reflexivity|].
    cbn [existsb] in Hs. apply orb_false_elim in Hs. destruct Hs as [Hw Hl].
    destruct i; [discriminate Hw|]. st_simpl.
    rewrite adc_wait_starves by (assumption || reflexivity). reflexivity.
Qed.

Lemma do_adc_conversion_sleeps_once_then_polls_witness :
  exists st',
    do_adc_conversion (power_on [IrqWDT; IrqADC 300; IrqADC 305]) = Some st'
    /\ log st' = [EvSleep SLEEP_MODE_ADC; EvIrq IrqWDT; EvIrq (IrqADC 300)].
Proof.
  destruct (do_adc_conversion_sleeps_once_then_polls
              [IrqWDT] 300 [IrqADC 305]
              (power_on [IrqWDT; IrqADC 300; IrqADC 305]))
    as ((st' & R & L & _) & _); [reflexivity|reflexivity|].
  exists st'. split; [exact R|exact L].
Defined.

(** C9, as the specification words it, fails: woken by the watchdog
    interrupt before the conversion is complete, the wait does not put the
    processor back to sleep; the conversion-complete interrupt is served
    while the processor is awake. *)
Lemma do_adc_conversion_does_not_sleep_again :
  option_map log (do_adc_conversion (power_on [IrqWDT; IrqADC 300]))
  = Some [EvSleep SLEEP_MODE_ADC; EvIrq IrqWDT; EvIrq (IrqADC 300)]
  /\ option_map (fun st => resleeps_after_stray_wake (log st))
                (do_adc_conversion (power_on [IrqWDT; IrqADC 300]))
     = Some false
  /\ resleeps_after_stray_wake
       [EvSleep SLEEP_MODE_ADC; EvIrq IrqWDT;
        EvSleep SLEEP_MODE_ADC; EvIrq (IrqADC 300)] = true.
Proof. repeat split. Qed.

Lemma testbit_set (p n i : Z) :
  0 <= n -> 0 <= i ->
  Z.testbit (Z.lor p (_BV n)) i = Z.testbit p i || (i =? n).
Proof.
  intros Hn Hi. unfold _BV. rewrite Z.lor_spec, testbit_pow2 by lia. reflexivity.
Qed.

Lemma testbit_clear (p n i : Z) :
  0 <= n -> 0 <= i ->
  Z.testbit (Z.land p (Z.lnot (_BV n))) i = Z.testbit p i && negb (i =? n).
Proof.
  intros Hn Hi. unfold _BV.
  rewrite Z.land_spec, Z.lnot_spec, testbit_pow2 by lia. reflexivity.
Qed.

Lemma testbit_toggle (p n i : Z) :
  0 <= n -> 0 <= i ->
  Z.testbit (Z.lxor p (_BV n)) i = xorb (Z.testbit p i) (i =? n).
Proof.
  intros Hn Hi. unfold _BV. rewrite Z.lxor_spec, testbit_pow2 by lia. reflexivity.
Qed.

(** ** Reading a field after an update *)

Lemma regs_write (r : reg) (v : Z) (st : state) :
  regs (write r v st) = (fun r' => if reg_eqb r' r then u8 v else regs st r').
Proof. reflexivity. Qed.

Lemma ADCW_write (r : reg) (v : Z) (st : state) :
  ADCW (write r v st) = ADCW st.
Proof. reflexivity. Qed.

Lemma lfsr_state_write (r : reg) (v : Z) (st : state) :
  lfsr_state (write r v st) = lfsr_state st.
Proof. reflexivity. Qed.

Lemma manchester_packet_write (r : reg) (v : Z) (st : state) :
  manchester_packet (write r v st) = manchester_packet st.
Proof. reflexivity. Qed.

Lemma irqs_write (r : reg) (v : Z) (st : state) :
  irqs (write r v st) = irqs st.
Proof. reflexivity. Qed.

Lemma log_write (r : reg) (v : Z) (st : state) :
  log (write r v st) = log st ++ [EvWrite r (u8 v)].
Proof. reflexivity. Qed.

Lemma regs_store (f : field) (v : Z) (st : state) :
  regs (store f v st) = regs st.
Proof. reflexivity. Qed.

Lemma ADCW_store (f : field) (v : Z) (st : state) :
  ADCW (store f v st) = ADCW st.
Proof. reflexivity. Qed.

Lemma lfsr_state_store (f : field) (v : Z) (st : state) :
  lfsr_state (store f v st) = lfsr_state st.
Proof. reflexivity. Qed.

Lemma manchester_packet_store (f : field) (v : Z) (st : state) :
  manchester_packet (store f v st) = set_field f v (manchester_packet st).
Proof. reflexivity. Qed.

Lemma irqs_store (f : field) (v : Z) (st : state) :
  irqs (store f v st) = irqs st.
Proof. reflexivity. Qed.

Lemma log_store (f : field) (v : Z) (st : state) :
  log (store f v st) = log st ++ [EvStore f v].
Proof. reflexivity. Qed.

Lemma regs_delay_us (us : Z) (st : state) :
  regs (delay_us us st) = regs st.
Proof. reflexivity. Qed.

Lemma ADCW_delay_us (us : Z) (st : state) :
  ADCW (delay_us us st) = ADCW st.
Proof. reflexivity. Qed.

Lemma lfsr_state_delay_us (us : Z) (st : state) :
  lfsr_state (delay_us us st) = lfsr_state st.
Proof. reflexivity. Qed.

Lemma manchester_packet_delay_us (us : Z) (st : state) :
  manchester_packet (delay_us us st) = manchester_packet st.
Proof. reflexivity. Qed.

Lemma irqs_delay_us (us : Z) (st : state) :
  irqs (delay_us us st) = irqs st.
Proof. reflexivity. Qed.

Lemma log_delay_us (us : Z) (st : state) :
  log (delay_us us st) = log st ++ [EvDelay us (tx_level st)].
Proof. reflexivity. Qed.

Create Rewrite HintDb state_db.

#[local] Hint Rewrite
  regs_write ADCW_write lfsr_state_write manchester_packet_write
  irqs_write log_write regs_store ADCW_store
  lfsr_state_store manchester_packet_store irqs_store log_store
  regs_delay_us ADCW_delay_us lfsr_state_delay_us manchester_packet_delay_us
  irqs_delay_us log_delay_us
  : state_db.

Lemma tx_level_delay_us (us : Z) (st : state) :
  tx_level (delay_us us st) = tx_level st.
Proof. reflexivity. Qed.

Lemma tx_level_store (f : field) (v : Z) (st : state) :
  tx_level (store f v st) = tx_level st.
Proof. reflexivity. Qed.

(** Rewrites every field read through an update. *)
Ltac st_rw := autorewrite with state_db in *.

(** ** The analog sampler: the reading *)

Lemma do_adc_conversion_result
      (pre : list irq) (v : Z) (rest : list irq) (st : state) :
  existsb is_adc pre = false ->
  irqs st = pre ++ IrqADC v :: rest ->
  exists st',
    do_adc_conversion st = Some st'
    /\ regs st' = regs st
    /\ ADCW st' = u16 v
    /\ lfsr_state st' = LFSR.mix_rand (u8 (u16 v)) (lfsr_state st)
    /\ manchester_packet st' = manchester_packet st
    /\ irqs st' = rest
    /\ log st' = log st ++ EvSleep SLEEP_MODE_ADC
                         :: map EvIrq (pre ++ [IrqADC v]).
Proof.
  intros Hpre Hi. eexists.
  split; [exact (do_adc_conversion_completes pre v rest st Hpre Hi)|].
  repeat split.
Qed.

(** C3: [read_temperature] powers the sensor up, configures the converter
    (1.1 V reference and channel 2 in ADMUX; converter enabled, completion
    interrupt enabled and prescaler 6 in ADCSRA), runs a first conversion,
    runs a second conversion, disables the converter, powers the sensor
    down, in this order, and returns the whole 16-bit result register as
    the second conversion left it; the result of the first conversion is
    not part of what is returned. *)
Theorem read_temperature_returns_second_conversion
        (pre1 pre2 rest : list irq) (v1 v2 : Z) (st : state) :
  existsb is_adc pre1 = false ->
  existsb is_adc pre2 = false ->
  irqs st = pre1 ++ IrqADC v1 :: pre2 ++ IrqADC v2 :: rest ->
  exists st' sensor_on admux adcsra_on adcsra_off sensor_off,
    read_temperature st = Some (u16 v2, st')
    /\ log st' = log st
         ++ [EvWrite PORTB sensor_on; EvWrite ADMUX admux;
             EvWrite ADCSRA adcsra_on]
         ++ EvSleep SLEEP_MODE_ADC :: map EvIrq (pre1 ++ [IrqADC v1])
         ++ EvSleep SLEEP_MODE_ADC :: map EvIrq (pre2 ++ [IrqADC v2])
         ++ [EvWrite ADCSRA adcsra_off; EvWrite PORTB sensor_off]
    /\ Z.testbit sensor_on TEMP_SENSE_POWER_PIN = true
    /\ admux = Z.lor (_BV REFS0) TEMP_SENSE_INPUT_AN_PIN
    /\ Z.testbit adcsra_on ADEN = true
    /\ Z.testbit adcsra_on ADIE = true
    /\ Z.land adcsra_on 7 = 6
    /\ Z.testbit adcsra_off ADEN = false
    /\ Z.testbit sensor_off TEMP_SENSE_POWER_PIN = false
    /\ ADCW st' = u16 v2
    /\ (0 <= v2 < 65536 -> u16 v2 = v2)
    /\ irqs st' = rest.
Proof.
  intros H1 H2 Hi. unfold read_temperature.
  set (st0 := write ADCSRA _ (write ADMUX _ (write PORTB _ st))).
  assert (Hi0 : irqs st0 = pre1 ++ IrqADC v1 :: pre2 ++ IrqADC v2 :: rest)
    by exact Hi.
  destruct (do_adc_conversion_result pre1 v1 _ st0 H1 Hi0)
    as (st1 & R1 & G1 & _ & _ & _ & I1 & L1).
  destruct (do_adc_conversion_result pre2 v2 _ st1 H2 I1)
    as (st2 & R2 & G2 & A2 & _ & _ & I2 & L2).
  rewrite R1, R2, A2. do 6 eexists. split; [reflexivity|].
  st_rw. rewrite G2, G1, L2, L1. subst st0. st_rw. cbn [reg_eqb].
  split; [rewrite <- !app_assoc; cbn [app]; rewrite <- ?app_assoc; reflexivity|].
  split; [rewrite testbit_u8, testbit_set by (unfold TEMP_SENSE_POWER_PIN; lia);
          rewrite Z.eqb_refl; apply orb_true_r|].
  split; [reflexivity|].
  split; [reflexivity|]. split; [reflexivity|]. split; [reflexivity|].
  split; [reflexivity|].
  split; [rewrite testbit_u8, testbit_clear by (unfold TEMP_SENSE_POWER_PIN; lia);
          rewrite Z.eqb_refl; apply andb_false_r|].
  split; [exact A2|].
  split; [intros Hv; apply Z.mod_small; exact Hv|exact I2].
Qed.

Lemma read_temperature_returns_second_conversion_witness :
  exists st',
    read_temperature (power_on [IrqADC 300; IrqADC 305]) = Some (305, st').
Proof.
  destruct (read_temperature_returns_second_conversion
              [] [] [] 300 305 (power_on [IrqADC 300; IrqADC 305]))
    as (st' & _ & _ & _ & _ & _ & R & _);
    [reflexivity|reflexivity|reflexivity|].
  exists st'. exact R.
Defined.

(** ** The Manchester transmitter: properties *)

Lemma waveform_app (a b : list event) :
  waveform (a ++ b) = waveform a ++ waveform b.
Proof.
  induction a as [|e a IH]; [reflexivity|].
  destruct e; cbn [app waveform]; rewrite IH; reflexivity.
Qed.

(** Induction along a run of slots, two events at a time. *)
Lemma is_slots_ind (P : list event -> Prop) :
  P [] ->
  (forall v us tx r,
      (us =? HALF_BIT_DELAY_TIME_US) = true ->
      Bool.eqb (Z.testbit v TX_PIN) tx = true ->
      is_slots r = true -> P r ->
      P (EvWrite PORTB v :: EvDelay us tx :: r)) ->
  forall evs, is_slots evs = true -> P evs.
Proof.
  intros H0 Hs evs.
  assert (G : forall n evs, (length evs <= n)%nat -> is_slots evs = true -> P evs).
  { clear evs. induction n as [|n IH]; intros evs Hn H.
    - destruct evs; [exact H0|cbn in Hn; lia].
    - destruct evs as [|e evs]; [exact H0|].
      destruct e as [r v| | | | |]; try discriminate H.
      destruct r; try discriminate H.
      destruct evs as [|e2 evs]; [discriminate H|].
      destruct e2 as [|us tx| | | |]; try discriminate H.
      cbn [is_slots] in H. apply andb_prop in H. destruct H as [H1 H2].
      apply andb_prop in H1. destruct H1 as [Hu Hl].
      apply Hs; try assumption. apply IH; [cbn [length] in Hn; lia|exact H2]. }
  exact (G (length evs) evs (le_n _)).
Qed.

Lemma is_slots_app (a b : list event) :
  is_slots a = true -> is_slots b = true -> is_slots (a ++ b) = true.
Proof.
  intros Ha Hb. revert a Ha. apply is_slots_ind.
  - exact Hb.
  - intros v us tx r Hu Hl _ IH.
    cbn [app is_slots]. rewrite Hu, Hl, IH. reflexivity.
Qed.

Lemma last_default {A : Type} (l : list A) (x d d' : A) :
  last (x :: l) d = last (x :: l) d'.
Proof.
  revert x. induction l as [|y l IH]; intros x; [reflexivity|].
  change (last (y :: l) d = last (y :: l) d'). apply IH.
Qed.

Lemma last_app_cons {A : Type} (a l : list A) (x d : A) :
  last (a ++ x :: l) d = last (x :: l) d.
Proof.
  induction a as [|y a IH]; [reflexivity|].
  cbn [app]. destruct (a ++ x :: l) eqn:E.
  - destruct a; discriminate E.
  - exact IH.
Qed.

Lemma last_level_app (a b : list (Z * bool)) (d : bool) :
  last_level (a ++ b) d = last_level b (last_level a d).
Proof.
  unfold last_level. destruct b as [|x b].
  - rewrite app_nil_r. reflexivity.
  - rewrite last_app_cons. f_equal. apply last_default.
Qed.

Lemma line_run_refl (st : state) : line_run st st [].
Proof.
  unfold line_run. rewrite app_nil_r. repeat split.
Qed.

Lemma line_run_trans (st1 st2 st3 : state) (e1 e2 : list event) :
  line_run st1 st2 e1 -> line_run st2 st3 e2 -> line_run st1 st3 (e1 ++ e2).
Proof.
  intros (L1 & S1 & R1 & B1 & T1 & P1 & F1 & I1)
         (L2 & S2 & R2 & B2 & T2 & P2 & F2 & I2).
  unfold line_run. repeat split.
  - rewrite L2, L1, app_assoc. reflexivity.
  - apply is_slots_app; assumption.
  - intros r Hr. rewrite R2, R1 by exact Hr. reflexivity.
  - intros k Hk Hne. rewrite B2, B1 by assumption. reflexivity.
  - rewrite waveform_app, last_level_app, <- T1. exact T2.
  - congruence.
  - congruence.
  - congruence.
Qed.

(** One half-bit slot: PORTB is written with [v], whose TX bit is [lvl] and
    whose other bits are those PORTB has, then the line is held. *)
Lemma slot_run (st : state) (v : Z) (lvl : bool) :
  Z.testbit (u8 v) TX_PIN = lvl ->
  (forall k, 0 <= k < 8 -> k <> TX_PIN ->
             Z.testbit v k = Z.testbit (regs st PORTB) k) ->
  line_run st (delay_us HALF_BIT_DELAY_TIME_US (write PORTB v st))
           [EvWrite PORTB (u8 v); EvDelay HALF_BIT_DELAY_TIME_US lvl].
Proof.
  intros Hl Hk. unfold line_run. st_simpl. cbn [reg_eqb].
  rewrite Hl. repeat split.
  - rewrite <- app_assoc. reflexivity.
  - cbn [is_slots]. rewrite Z.eqb_refl, Hl, eqb_reflx. reflexivity.
  - intros r Hr. destruct r; try reflexivity. congruence.
  - intros k Hk8 Hne. rewrite testbit_u8 by lia.
    destruct (Z.ltb_spec k 8); [|lia]. cbn [andb]. apply Hk; assumption.
Qed.

Lemma tx_high_bits (p k : Z) :
  0 <= k < 8 ->
  Z.testbit (u8 (Z.lor p (_BV TX_PIN))) k = Z.testbit p k || (k =? TX_PIN).
Proof.
  intros Hk. rewrite testbit_u8, testbit_set by (unfold TX_PIN; lia).
  destruct (Z.ltb_spec k 8); [reflexivity|lia].
Qed.

Lemma tx_low_bits (p k : Z) :
  0 <= k < 8 ->
  Z.testbit (u8 (Z.land p (Z.lnot (_BV TX_PIN)))) k
  = Z.testbit p k && negb (k =? TX_PIN).
Proof.
  intros Hk. rewrite testbit_u8, testbit_clear by (unfold TX_PIN; lia).
  destruct (Z.ltb_spec k 8); [reflexivity|lia].
Qed.

Lemma tx_toggle_bits (p k : Z) :
  0 <= k < 8 ->
  Z.testbit (u8 (Z.lxor p (_BV TX_PIN))) k
  = xorb (Z.testbit p k) (k =? TX_PIN).
Proof.
  intros Hk. rewrite testbit_u8, testbit_toggle by (unfold TX_PIN; lia).
  destruct (Z.ltb_spec k 8); [reflexivity|lia].
Qed.

Lemma other_bit (k : Z) : k <> TX_PIN -> (k =? TX_PIN) = false.
Proof. intros H. apply Z.eqb_neq. exact H. Qed.

(** Driving the line to [lvl] for a half bit, as the two branches of
    [transmit_byte] do. *)
Lemma drive_run (st : state) (lvl : bool) :
  line_run st
    (delay_us HALF_BIT_DELAY_TIME_US
       (if lvl
        then write PORTB (Z.lor (regs st PORTB) (_BV TX_PIN)) st
        else write PORTB (Z.land (regs st PORTB) (Z.lnot (_BV TX_PIN))) st))
    [EvWrite PORTB
       (u8 (if lvl then Z.lor (regs st PORTB) (_BV TX_PIN)
            else Z.land (regs st PORTB) (Z.lnot (_BV TX_PIN))));
     EvDelay HALF_BIT_DELAY_TIME_US lvl].
Proof.
  destruct lvl; apply slot_run.
  - rewrite tx_high_bits by (unfold TX_PIN; lia).
    rewrite Z.eqb_refl. apply orb_true_r.
  - intros k Hk Hne. rewrite testbit_set by (unfold TX_PIN; lia).
    rewrite other_bit by exact Hne. apply orb_false_r.
  - rewrite tx_low_bits by (unfold TX_PIN; lia).
    rewrite Z.eqb_refl. apply andb_false_r.
  - intros k Hk Hne. rewrite testbit_clear by (unfold TX_PIN; lia).
    rewrite other_bit by exact Hne. apply andb_true_r.
Qed.

(** Toggling the line and holding it for a half bit. *)
Lemma toggle_run (st : state) :
  line_run st
    (delay_us HALF_BIT_DELAY_TIME_US
       (write PORTB (Z.lxor (regs st PORTB) (_BV TX_PIN)) st))
    [EvWrite PORTB (u8 (Z.lxor (regs st PORTB) (_BV TX_PIN)));
     EvDelay HALF_BIT_DELAY_TIME_US (negb (tx_level st))].
Proof.
  apply slot_run.
  - rewrite tx_toggle_bits by (unfold TX_PIN; lia).
    rewrite Z.eqb_refl. unfold tx_level. apply xorb_true_r.
  - intros k Hk Hne. rewrite testbit_toggle by (unfold TX_PIN; lia).
    rewrite other_bit by exact Hne. apply xorb_false_r.
Qed.

Lemma flat_map_seq_shift {A : Type} (f : nat -> list A) (j : nat) :
  flat_map f (seq 1 j) = flat_map (fun i => f (S i)) (seq 0 j).
Proof.
  rewrite <- seq_shift. induction (seq 0 j) as [|x l IH]; [reflexivity|].
  cbn [map flat_map]. rewrite IH. reflexivity.
Qed.

(** One pass of the loop of [transmit_byte]: two slots, the bit and its
    opposite. *)
Lemma bit_run (st : state) (b : Z) :
  exists evs,
    line_run st (transmit_bit b st) evs
    /\ waveform evs = manchester_bit (Z.testbit b 0).
Proof.
  unfold transmit_bit. rewrite land_1_eqb.
  pose proof (drive_run st (Z.testbit b 0)) as D.
  replace (if negb (Z.testbit b 0)
           then write PORTB (Z.land (regs st PORTB) (Z.lnot (_BV TX_PIN))) st
           else write PORTB (Z.lor (regs st PORTB) (_BV TX_PIN)) st)
    with (if Z.testbit b 0
          then write PORTB (Z.lor (regs st PORTB) (_BV TX_PIN)) st
          else write PORTB (Z.land (regs st PORTB) (Z.lnot (_BV TX_PIN))) st)
    by (destruct (Z.testbit b 0); reflexivity).
  set (st1 := delay_us HALF_BIT_DELAY_TIME_US _) in *.
  pose proof (toggle_run st1) as T.
  assert (Hl : tx_level st1 = Z.testbit b 0).
  { destruct D as (_ & _ & _ & _ & Hl & _). exact Hl. }
  rewrite Hl in T.
  eexists. split; [exact (line_run_trans _ _ _ _ _ D T)|].
  reflexivity.
Qed.

Lemma transmit_bits_run (j : nat) (b : Z) (st : state) :
  exists evs,
    line_run st (transmit_bits j b st) evs
    /\ waveform evs
       = flat_map (fun i => manchester_bit (Z.testbit b (Z.of_nat i))) (seq 0 j).
Proof.
  revert b st. induction j as [|j IH]; intros b st.
  - exists []. split; [apply line_run_refl|reflexivity].
  - cbn [transmit_bits].
    destruct (bit_run st b) as (e1 & R1 & W1).
    destruct (IH (Z.shiftr b 1) (transmit_bit b st)) as (e2 & R2 & W2).
    exists (e1 ++ e2). split; [exact (line_run_trans _ _ _ _ _ R1 R2)|].
    rewrite waveform_app, W1, W2.
    cbn [seq flat_map]. rewrite flat_map_seq_shift. f_equal.
    apply flat_map_ext. intros i.
    rewrite Z.shiftr_spec by lia.
    replace (Z.of_nat i + 1) with (Z.of_nat (S i)) by lia. reflexivity.
Qed.


Lemma manchester_byte_u8 (b : Z) : manchester_byte (u8 b) = manchester_byte b.
Proof.
  unfold manchester_byte. cbn [seq flat_map].
  rewrite !testbit_u8 by lia. reflexivity.
Qed.

Lemma transmit_byte_run (b : Z) (st : state) :
  exists evs,
    line_run st (transmit_byte b st) evs
    /\ waveform evs = manchester_byte b.
Proof.
  unfold transmit_byte.
  destruct (transmit_bits_run 8 (u8 b) st) as (evs & R & W).
  exists evs. split; [exact R|].
  rewrite W. apply manchester_byte_u8.
Qed.

(** The sixteen slots of a byte, written out: bit 0 first, bit 7 last, each
    followed by its opposite. *)
Lemma manchester_byte_slots (b : Z) :
  manchester_byte b
  = [(500, Z.testbit b 0); (500, negb (Z.testbit b 0));
     (500, Z.testbit b 1); (500, negb (Z.testbit b 1));
     (500, Z.testbit b 2); (500, negb (Z.testbit b 2));
     (500, Z.testbit b 3); (500, negb (Z.testbit b 3));
     (500, Z.testbit b 4); (500, negb (Z.testbit b 4));
     (500, Z.testbit b 5); (500, negb (Z.testbit b 5));
     (500, Z.testbit b 6); (500, negb (Z.testbit b 6));
     (500, Z.testbit b 7); (500, negb (Z.testbit b 7))].
Proof. reflexivity. Qed.

(** C2: [transmit_byte b] sends the eight bits of [b], bit 0 first, in
    sixteen half-bit slots of 500 microseconds each, every slot being one
    write to PORTB followed by one half-bit delay: for a 1 bit the line is
    high in the first slot and low in the second, for a 0 bit low in the
    first and high in the second.  Nothing but the TX bit of PORTB is
    changed. *)
Theorem transmit_byte_sends_manchester_lsb_first (b : Z) (st : state) :
  exists evs,
    log (transmit_byte b st) = log st ++ evs
    /\ is_slots evs = true
    /\ waveform evs
       = flat_map (fun i => [(HALF_BIT_DELAY_TIME_US, Z.testbit b (Z.of_nat i));
                             (HALF_BIT_DELAY_TIME_US,
                              negb (Z.testbit b (Z.of_nat i)))])
                  (seq 0 8)
    /\ waveform evs = manchester_byte b
    /\ manchester_bit true
       = [(HALF_BIT_DELAY_TIME_US, true); (HALF_BIT_DELAY_TIME_US, false)]
    /\ manchester_bit false
       = [(HALF_BIT_DELAY_TIME_US, false); (HALF_BIT_DELAY_TIME_US, true)]
    /\ (forall r, r <> PORTB -> regs (transmit_byte b st) r = regs st r)
    /\ (forall k, 0 <= k < 8 -> k <> TX_PIN ->
        Z.testbit (regs (transmit_byte b st) PORTB) k
        = Z.testbit (regs st PORTB) k).
Proof.
  destruct (transmit_byte_run b st) as (evs & (L & S & R & B & _) & W).
  exists evs. repeat split; try assumption.
Qed.

Lemma preamble_loop_run (i : nat) (st : state) :
  exists evs,
    line_run st (preamble_loop i st) evs
    /\ waveform evs = flat_map manchester_byte (repeat 0xFF i).
Proof.
  revert st. induction i as [|i IH]; intros st.
  - exists []. split; [apply line_run_refl|reflexivity].
  - cbn [preamble_loop].
    destruct (transmit_byte_run 0xFF st) as (e1 & R1 & W1).
    destruct (IH (transmit_byte 0xFF st)) as (e2 & R2 & W2).
    exists (e1 ++ e2). split; [exact (line_run_trans _ _ _ _ _ R1 R2)|].
    rewrite waveform_app, W1, W2. reflexivity.
Qed.

Lemma skipn_nth {A : Type} (l : list A) (i : nat) (d : A) :
  (i < length l)%nat -> skipn i l = nth i l d :: skipn (S i) l.
Proof.
  revert i. induction l as [|x l IH]; intros i Hi; [cbn in Hi; lia|].
  destruct i as [|i]; [reflexivity|].
  cbn [length] in Hi. cbn [skipn nth]. rewrite (IH i) by lia. reflexivity.
Qed.

Section TransmitFacts.

Variable calculate_checksum : packet -> Z.
Variable manchester_data : packet -> list Z.

Lemma data_loop_run (todo i : nat) (st : state) :
  (i + todo <= length (manchester_data (manchester_packet st)))%nat ->
  exists evs,
    line_run st (data_loop manchester_data todo i st) evs
    /\ waveform evs
       = flat_map manchester_byte
           (firstn todo (skipn i (manchester_data (manchester_packet st)))).
Proof.
  revert i st. induction todo as [|todo IH]; intros i st Hlen.
  - exists []. split; [apply line_run_refl|reflexivity].
  - cbn [data_loop].
    set (data := manchester_data (manchester_packet st)) in *.
    destruct (transmit_byte_run (nth i data 0) st) as (e1 & R1 & W1).
    assert (P1 : manchester_packet (transmit_byte (nth i data 0) st)
                 = manchester_packet st).
    { destruct R1 as (_ & _ & _ & _ & _ & P & _). exact P. }
    destruct (IH (S i) (transmit_byte (nth i data 0) st)) as (e2 & R2 & W2).
    { rewrite P1. fold data. lia. }
    rewrite P1 in W2. fold data in W2.
    exists (e1 ++ e2). split; [exact (line_run_trans _ _ _ _ _ R1 R2)|].
    rewrite waveform_app, W1, W2.
    rewrite (skipn_nth data i 0) by lia. reflexivity.
Qed.

Lemma final_transition_run (st : state) :
  line_run st (final_transition st)
    [EvWrite PORTB (u8 (Z.lxor (regs st PORTB) (_BV TX_PIN)));
     EvDelay HALF_BIT_DELAY_TIME_US (negb (tx_level st))].
Proof. apply toggle_run. Qed.

Lemma manchester_frame_last (data : list Z) (d d' : bool) :
  last_level (manchester_frame data) d = last_level (manchester_frame data) d'.
Proof.
  unfold last_level, manchester_frame, PREAMBLE.
  cbn [app flat_map]. rewrite manchester_byte_slots. cbn [app].
  f_equal. apply last_default.
Qed.

Lemma send_frame_run (st : state) :
  exists evs,
    line_run st (send_frame manchester_data st) evs
    /\ waveform evs
       = manchester_frame (manchester_data (manchester_packet st))
         ++ [(HALF_BIT_DELAY_TIME_US,
              negb (last_level
                      (manchester_frame (manchester_data (manchester_packet st)))
                      false))].
Proof.
  unfold send_frame.
  destruct (preamble_loop_run 4 st) as (e1 & R1 & W1).
  set (s1 := preamble_loop 4 st) in *.
  destruct (transmit_byte_run 0x7F s1) as (e2 & R2 & W2).
  set (s2 := transmit_byte 0x7F s1) in *.
  pose proof (line_run_trans _ _ _ _ _ R1 R2) as R12.
  assert (P2 : manchester_packet s2 = manchester_packet st).
  { destruct R12 as (_ & _ & _ & _ & _ & P & _). exact P. }
  cbv zeta.
  destruct (data_loop_run (length (manchester_data (manchester_packet s2))) 0 s2)
    as (e3 & R3 & W3); [cbn; lia|].
  set (s3 := data_loop manchester_data _ 0 s2) in *.
  pose proof (line_run_trans _ _ _ _ _ R12 R3) as R123.
  pose proof (final_transition_run s3) as R4.
  assert (T3 : tx_level s3
               = last_level (manchester_frame
                               (manchester_data (manchester_packet st))) false).
  { destruct R123 as (_ & _ & _ & _ & T & _). rewrite T.
    rewrite !waveform_app, W1, W2, W3, P2.
    cbn [skipn]. rewrite firstn_all.
    replace (flat_map manchester_byte (repeat 255 4) ++
             manchester_byte 127 ++
             flat_map manchester_byte (manchester_data (manchester_packet st)))
      with (manchester_frame (manchester_data (manchester_packet st)))
      by reflexivity.
    apply manchester_frame_last. }
  rewrite T3 in R4.
  eexists. split; [exact (line_run_trans _ _ _ _ _ R123 R4)|].
  rewrite !waveform_app, W1, W2, W3, P2. cbn [skipn]. rewrite firstn_all.
  cbn [waveform]. rewrite <- !app_assoc. reflexivity.
Qed.

Lemma transmit_phases (st : state) :
  transmit calculate_checksum manchester_data st
  = radio_power_down
      (send_frame manchester_data
         (store Checksum
            (calculate_checksum (manchester_packet (radio_power_up st)))
            (radio_power_up st))).
Proof. reflexivity. Qed.

End TransmitFacts.

Lemma is_slots_no_store (evs : list event) :
  is_slots evs = true -> has_store evs = false.
Proof.
  revert evs. apply is_slots_ind.
  - reflexivity.
  - intros v us tx r _ _ _ IH. exact IH.
Qed.

Lemma is_slots_half_bits (rest evs : list event) :
  is_slots evs = true ->
  half_bits_before_checksum (evs ++ rest)
  = match half_bits_before_checksum rest with
    | Some n => Some (length (waveform evs) + n)%nat
    | None => None
    end.
Proof.
  revert evs. apply is_slots_ind.
  - cbn [app waveform length]. destruct (half_bits_before_checksum rest); reflexivity.
  - intros v us tx r Hu _ _ IH.
    cbn [app half_bits_before_checksum waveform length].
    rewrite IH, Hu.
    destruct (half_bits_before_checksum rest); reflexivity.
Qed.

Section TransmitTrace.

Variable calculate_checksum : packet -> Z.
Variable manchester_data : packet -> list Z.

(** What [transmit] logs and leaves behind, in full. *)
Lemma transmit_trace (st : state) :
  let c := calculate_checksum (manchester_packet st) in
  let p := set_field Checksum c (manchester_packet st) in
  exists radio_on tx_out lvl frame radio_off tx_in tx_low,
    log (transmit calculate_checksum manchester_data st)
    = log st
      ++ [EvWrite PORTB radio_on; EvWrite DDRB tx_out;
          EvDelay SETTLE_DELAY_US lvl; EvStore Checksum c]
      ++ frame
      ++ [EvWrite PORTB radio_off; EvWrite DDRB tx_in; EvWrite PORTB tx_low]
    /\ is_slots frame = true
    /\ waveform frame
       = manchester_frame (manchester_data p)
         ++ [(HALF_BIT_DELAY_TIME_US,
              negb (last_level (manchester_frame (manchester_data p)) false))]
    /\ Z.testbit radio_on RADIO_POWER_PIN = true
    /\ Z.testbit tx_out TX_PIN = true
    /\ Z.testbit radio_off RADIO_POWER_PIN = false
    /\ Z.testbit tx_in TX_PIN = false
    /\ Z.testbit tx_low TX_PIN = false
    /\ Z.testbit tx_low RADIO_POWER_PIN = false
    /\ manchester_packet (transmit calculate_checksum manchester_data st) = p
    /\ regs (transmit calculate_checksum manchester_data st) PORTB = tx_low
    /\ regs (transmit calculate_checksum manchester_data st) DDRB = tx_in.
Proof.
  intros c p. rewrite transmit_phases.
  assert (U : manchester_packet (radio_power_up st) = manchester_packet st)
    by reflexivity.
  assert (LU : log (radio_power_up st)
               = log st
                 ++ [EvWrite PORTB (u8 (Z.lor (regs st PORTB) (_BV RADIO_POWER_PIN)));
                     EvWrite DDRB (u8 (Z.lor (regs st DDRB) (_BV TX_PIN)));
                     EvDelay SETTLE_DELAY_US
                       (Z.testbit
                          (u8 (Z.lor (regs st PORTB) (_BV RADIO_POWER_PIN)))
                          TX_PIN)]).
  { unfold radio_power_up. cbv zeta. st_rw. cbn [reg_eqb].
    rewrite <- !app_assoc. reflexivity. }
  rewrite U. fold c.
  set (s1 := store Checksum c (radio_power_up st)).
  assert (P1 : manchester_packet s1 = p) by (subst s1; st_rw; rewrite U; reflexivity).
  assert (L1 : log s1 = log (radio_power_up st) ++ [EvStore Checksum c])
    by reflexivity.
  destruct (send_frame_run manchester_data s1)
    as (frame & (L2 & S2 & _ & _ & _ & P2 & _) & W2).
  set (s2 := send_frame manchester_data s1) in *.
  rewrite P1 in W2.
  exists (u8 (Z.lor (regs st PORTB) (_BV RADIO_POWER_PIN))),
         (u8 (Z.lor (regs st DDRB) (_BV TX_PIN))),
         (Z.testbit (u8 (Z.lor (regs st PORTB) (_BV RADIO_POWER_PIN))) TX_PIN),
         frame,
         (u8 (Z.land (regs s2 PORTB) (Z.lnot (_BV RADIO_POWER_PIN)))),
         (u8 (Z.land (regs s2 DDRB) (Z.lnot (_BV TX_PIN)))),
         (u8 (Z.land (u8 (Z.land (regs s2 PORTB) (Z.lnot (_BV RADIO_POWER_PIN))))
                     (Z.lnot (_BV TX_PIN)))).
  split.
  { unfold radio_power_down. cbv zeta. st_rw. cbn [reg_eqb].
    rewrite L2, L1, LU. rewrite <- !app_assoc. reflexivity. }
  split; [exact S2|]. split; [exact W2|].
  split.
  { rewrite testbit_u8, testbit_set by (unfold RADIO_POWER_PIN; lia).
    rewrite Z.eqb_refl. apply orb_true_r. }
  split.
  { rewrite testbit_u8, testbit_set by (unfold TX_PIN; lia).
    rewrite Z.eqb_refl. apply orb_true_r. }
  split.
  { rewrite testbit_u8, testbit_clear by (unfold RADIO_POWER_PIN; lia).
    rewrite Z.eqb_refl. apply andb_false_r. }
  split.
  { rewrite testbit_u8, testbit_clear by (unfold TX_PIN; lia).
    rewrite Z.eqb_refl. apply andb_false_r. }
  split.
  { rewrite testbit_u8, testbit_clear by (unfold TX_PIN; lia).
    rewrite Z.eqb_refl. apply andb_false_r. }
  split.
  { rewrite testbit_u8, testbit_clear by (unfold RADIO_POWER_PIN, TX_PIN; lia).
    rewrite testbit_u8, testbit_clear by (unfold RADIO_POWER_PIN; lia).
    rewrite Z.eqb_refl. cbn [negb]. rewrite !andb_false_r. reflexivity. }
  split; [rewrite <- P1, <- P2; reflexivity|].
  split; reflexivity.
Qed.

End TransmitTrace.

(** C1: [transmit] powers the radio up and makes the line an output, waits
    the settle delay, and then sends, slot by slot, the Manchester coding
    of four bytes 0xFF, one byte 0x7F and every byte of the union's byte
    array in order (the packet holding the fresh checksum), followed by one
    more half-bit slot in which the line is toggled; then it powers the
    radio down, makes the line an input and clears its bit in PORTB, in
    this order. *)
Theorem transmit_emits_preamble_packet_and_final_transition
        (calculate_checksum : packet -> Z) (manchester_data : packet -> list Z)
        (st : state) :
  let c := calculate_checksum (manchester_packet st) in
  let p := set_field Checksum c (manchester_packet st) in
  let bytes := [0xFF; 0xFF; 0xFF; 0xFF; 0x7F] ++ manchester_data p in
  exists radio_on tx_out lvl frame radio_off tx_in tx_low,
    log (transmit calculate_checksum manchester_data st)
    = log st
      ++ [EvWrite PORTB radio_on; EvWrite DDRB tx_out;
          EvDelay SETTLE_DELAY_US lvl; EvStore Checksum c]
      ++ frame
      ++ [EvWrite PORTB radio_off; EvWrite DDRB tx_in; EvWrite PORTB tx_low]
    /\ is_slots frame = true
    /\ waveform frame
       = flat_map manchester_byte bytes
         ++ [(HALF_BIT_DELAY_TIME_US,
              negb (last_level (flat_map manchester_byte bytes) false))]
    /\ Z.testbit radio_on RADIO_POWER_PIN = true
    /\ Z.testbit tx_out TX_PIN = true
    /\ Z.testbit radio_off RADIO_POWER_PIN = false
    /\ Z.testbit tx_in TX_PIN = false
    /\ Z.testbit tx_low TX_PIN = false
    /\ Z.testbit tx_low RADIO_POWER_PIN = false
    /\ manchester_packet (transmit calculate_checksum manchester_data st) = p
    /\ regs (transmit calculate_checksum manchester_data st) PORTB = tx_low
    /\ regs (transmit calculate_checksum manchester_data st) DDRB = tx_in.
Proof.
  intros c p bytes.
  exact (transmit_trace calculate_checksum manchester_data st).
Qed.

(** C8, as the code has it: [transmit] computes the checksum from the
    packet as it stands and stores it after the radio is powered up and
    the settle delay is over, before the first half-bit slot of the
    preamble, not between the preamble and the data.  It is the only
    packet field [transmit] writes and nothing is written to the packet
    after it, so the data bytes sent are those of the packet with that
    checksum. *)
Theorem transmit_stores_checksum_before_preamble
        (calculate_checksum : packet -> Z) (manchester_data : packet -> list Z)
        (st : state) :
  let c := calculate_checksum (manchester_packet st) in
  let p := set_field Checksum c (manchester_packet st) in
  exists radio_on tx_out lvl post tail,
    let pre := [EvWrite PORTB radio_on; EvWrite DDRB tx_out;
                EvDelay SETTLE_DELAY_US lvl] in
    log (transmit calculate_checksum manchester_data st)
    = log st ++ pre ++ [EvStore Checksum c] ++ post ++ tail
    /\ has_store pre = false
    /\ half_bits_before_checksum (pre ++ [EvStore Checksum c] ++ post ++ tail)
       = Some 0%nat
    /\ ~ checksum_stored_after_preamble
         (pre ++ [EvStore Checksum c] ++ post ++ tail)
    /\ has_store (post ++ tail) = false
    /\ waveform post
       = flat_map manchester_byte PREAMBLE
         ++ flat_map manchester_byte (manchester_data p)
         ++ [(HALF_BIT_DELAY_TIME_US,
              negb (last_level (manchester_frame (manchester_data p)) false))]
    /\ waveform tail = []
    /\ manchester_packet (transmit calculate_checksum manchester_data st) = p.
Proof.
  intros c p.
  destruct (transmit_trace calculate_checksum manchester_data st)
    as (radio_on & tx_out & lvl & frame & radio_off & tx_in & tx_low
        & L & S & W & _ & _ & _ & _ & _ & _ & P & _).
  fold c in L. fold p in W, P.
  exists radio_on, tx_out, lvl, frame,
         [EvWrite PORTB radio_off; EvWrite DDRB tx_in; EvWrite PORTB tx_low].
  cbv zeta.
  split; [rewrite L; cbn [app]; reflexivity|].
  split; [reflexivity|].
  split; [reflexivity|].
  split; [unfold checksum_stored_after_preamble; cbn; discriminate|].
  split.
  { unfold has_store. rewrite existsb_app.
    fold (has_store frame). rewrite (is_slots_no_store frame S). reflexivity. }
  split.
  { rewrite W. unfold manchester_frame. rewrite flat_map_app, <- app_assoc.
    reflexivity. }
  split; [reflexivity|exact P].
Qed.

(** C8, as the specification words it, fails: in the log of a transmission
    no half-bit slot lies before the write of the checksum, whereas a write
    after the preamble would have the preamble's eighty slots before it. *)
Lemma transmit_checksum_is_not_stored_after_preamble :
  half_bits_before_checksum
    (log (transmit example_checksum example_data (power_on [])))
  = Some 0%nat
  /\ length (flat_map manchester_byte PREAMBLE) = 80%nat
  /\ ~ checksum_stored_after_preamble
        (log (transmit example_checksum example_data (power_on []))).
Proof.
  split; [vm_compute; reflexivity|].
  split; [reflexivity|].
  unfold checksum_stored_after_preamble. vm_compute. discriminate.
Qed.

(** ** Worked examples *)

(** The all-zero state is a fixed point of the shift, which is why
    [rand_byte] guards against it. *)
Example shift_zero_is_stuck : LFSR.shift 0 = 0.
Proof. reflexivity. Qed.

Example rand_byte_reseeds_from_zero : LFSR.rand_byte 0 = LFSR.rand_byte 0xDEAD.
Proof. reflexivity. Qed.

Example rand_byte_from_seed : LFSR.rand_byte 0xDEAD = (0x84, 0xAD84).
Proof. vm_compute. reflexivity. Qed.

Example mix_rand_even_sample : LFSR.mix_rand 0x12 0x8001 = 0x8001.
Proof. reflexivity. Qed.

Example mix_rand_equal_bits : LFSR.mix_rand 0x13 0x8009 = 0x8009.
Proof. reflexivity. Qed.

Example manchester_0x7F :
  map snd (manchester_byte 0x7F)
  = [true; false; true; false; true; false; true; false;
     true; false; true; false; true; false; false; true].
Proof. reflexivity. Qed.

Example transmit_byte_0x01_waveform :
  waveform (log (transmit_byte 0x01 (power_on []))) = manchester_byte 0x01.
Proof. vm_compute. reflexivity. Qed.

(** The converter returns 300, then 305: the first value is dropped. *)
Example read_temperature_300_305 :
  option_map fst (read_temperature (power_on [IrqADC 300; IrqADC 305]))
  = Some 305.
Proof. vm_compute. reflexivity. Qed.

(** Without a second conversion [read_temperature] never returns. *)
Example read_temperature_starves :
  read_temperature (power_on [IrqADC 300; IrqWDT; IrqWDT]) = None.
Proof. vm_compute. reflexivity. Qed.

(** From the reset state the generator is reseeded, the random byte is
    0x84, and [deep_sleep] sleeps 117 + 4 times. *)
Example deep_sleep_after_reset :
  option_map (fun st => (sleeps (log st), length (irqs st)))
             (deep_sleep (power_on (repeat IrqWDT 130)))
  = Some (121%nat, 9%nat).
Proof. vm_compute. reflexivity. Qed.

(** A frame of the example layout: a settle delay, 11 bytes of 16 slots,
    and the final transition; the line ends low and undriven. *)
Example transmit_example_frame :
  let st := transmit example_checksum example_data
              (store Reading 305 (store NodeId 3 (power_on []))) in
  length (waveform (log st)) = (1 + 11 * 16 + 1)%nat
  /\ manchester_packet st = mkPacket 3 0 0 305 53
  /\ regs st PORTB = 0 /\ regs st DDRB = 0.
Proof. vm_compute. repeat split. Qed.

(** One pass of the main loop from reset, with the example layout, 1 for
    the temperature tag and a one-byte sequence number: the fields are
    written in the order node id, sequence number, reading type, reading,
    checksum, and the checksum is that of the other four. *)
Example main_loop_body_first_cycle :
  option_map
    (fun st => (filter is_store (log st), manchester_packet st))
    (main_loop_body example_checksum example_data 1 u8
       (power_on ([IrqADC 300; IrqADC 305] ++ repeat IrqWDT 124)))
  = Some ([EvStore NodeId 3; EvStore SeqNo 1; EvStore ReadingType 1;
           EvStore Reading 305; EvStore Checksum 55],
          mkPacket 3 1 1 305 55).
Proof. vm_compute. reflexivity. Qed.

(** ** The entropy generator: range, inverse and structure *)

Lemma iter_shift_step (k : nat) (s : Z) :
  Nat.iter k LFSR.shift s = Nat.iter k LFSR.step_spec s.
Proof.
  induction k as [|k IH]; [reflexivity|].
  rewrite !Nat.iter_succ, IH. apply shift_is_step_spec.
Qed.

Lemma guard_range (s : Z) : 0 <= s < 65536 -> 0 < LFSR.guard s < 65536.
Proof.
  intros Hs. unfold LFSR.guard, LFSR.SEED.
  destruct (Z.eqb_spec s 0); lia.
Qed.

Lemma rand_byte_state_range (s : Z) :
  0 <= s < 65536 -> 0 < snd (LFSR.rand_byte s) < 65536.
Proof.
  intros Hs. rewrite rand_byte_unfold. cbn [snd].
  apply step_spec_iter_nonzero. apply guard_range. exact Hs.
Qed.

(** X1: whatever 16-bit value [lfsr_state] holds, zero included,
    [rand_byte] returns a byte between 0 and 255, the low byte of the new
    state, and leaves a state that is non-zero and fits 16 bits. *)
Theorem rand_byte_leaves_nonzero_state (s : Z) :
  0 <= s < 65536 ->
  0 <= fst (LFSR.rand_byte s) < 256
  /\ fst (LFSR.rand_byte s) = snd (LFSR.rand_byte s) mod 256
  /\ 0 < snd (LFSR.rand_byte s) < 65536.
Proof.
  intros Hs. split; [|split; [|apply rand_byte_state_range; exact Hs]].
  - rewrite rand_byte_unfold. cbn [fst].
    unfold u8. apply Z.mod_pos_bound. lia.
  - rewrite rand_byte_unfold. cbn [fst snd]. unfold u8. reflexivity.
Qed.

Lemma rand_byte_leaves_nonzero_state_witness :
  0 <= 0 < 65536 /\ 0 < snd (LFSR.rand_byte 0) < 65536.
Proof.
  split; [lia|].
  apply (rand_byte_leaves_nonzero_state 0). lia.
Defined.

Lemma mix_rand_range (x s : Z) :
  0 <= s < 65536 -> 0 <= LFSR.mix_rand x s < 65536.
Proof.
  intros Hs. unfold LFSR.mix_rand.
  destruct (Z.land x 1 =? 0); [exact Hs|].
  destruct (_ =? _); [exact Hs|].
  unfold u16. apply Z.mod_pos_bound. lia.
Qed.

Lemma mix_rand_nonzero (x s : Z) :
  0 < s < 65536 -> LFSR.mix_rand x s <> 0.
Proof.
  intros Hs. rewrite mix_rand_unfold by lia.
  destruct (LFSR.flips x s) eqn:Hf; [|lia].
  intros E. unfold LFSR.flips in Hf. apply andb_prop in Hf. destruct Hf as [_ Hx].
  assert (B15 : Z.testbit (Z.lxor s 0x8008) 15 = negb (Z.testbit s 15)).
  { rewrite Z.lxor_spec. reflexivity. }
  assert (B3 : Z.testbit (Z.lxor s 0x8008) 3 = negb (Z.testbit s 3)).
  { rewrite Z.lxor_spec. destruct (Z.testbit s 3); reflexivity. }
  rewrite E, Z.bits_0 in B15, B3.
  destruct (Z.testbit s 15), (Z.testbit s 3); discriminate.
Qed.

Lemma run_op_invariant (o : lfsr_op) (s : Z) :
  0 < s < 65536 -> 0 < run_op o s < 65536.
Proof.
  intros Hs. destruct o as [x|]; cbn [run_op].
  - pose proof (mix_rand_range x s ltac:(lia)).
    pose proof (mix_rand_nonzero x s Hs). lia.
  - apply rand_byte_state_range. lia.
Qed.

Lemma run_ops_app (a b : list lfsr_op) (s : Z) :
  run_ops (a ++ b) s = run_ops b (run_ops a s).
Proof.
  revert s. induction a as [|o a IH]; intros s; [reflexivity|].
  cbn [app run_ops]. apply IH.
Qed.

(** X2: from a non-zero 16-bit state, every interleaving of [mix_rand]
    and [rand_byte] calls keeps [lfsr_state] non-zero and within 16 bits
    after each call, so the zero-guard of [rand_byte] never fires: every
    [rand_byte] in the sequence is eight plain shifts of the state it
    finds. *)
Theorem lfsr_state_stays_nonzero_under_all_calls (ops : list lfsr_op) (s : Z) :
  0 < s < 65536 ->
  (forall done rest, ops = done ++ rest ->
     0 < run_ops done s < 65536)
  /\ (forall done rest, ops = done ++ OpRand :: rest ->
       run_ops (done ++ [OpRand]) s
       = Nat.iter 8 LFSR.shift (run_ops done s)).
Proof.
  intros Hs.
  assert (I : forall l t, 0 < t < 65536 -> 0 < run_ops l t < 65536).
  { induction l as [|o l IH]; intros t Ht; [exact Ht|].
    cbn [run_ops]. apply IH. apply run_op_invariant. exact Ht. }
  split.
  - intros done rest _. apply I. exact Hs.
  - intros done rest _. rewrite run_ops_app. cbn [run_ops run_op].
    rewrite rand_byte_unfold. cbn [snd].
    pose proof (I done s Hs) as Hd.
    unfold LFSR.guard. destruct (Z.eqb_spec (run_ops done s) 0); [lia|].
    symmetry. apply iter_shift_step.
Qed.

Lemma lfsr_state_stays_nonzero_under_all_calls_witness :
  0 < 0x8001 < 65536
  /\ 0 < run_ops [OpMix 1; OpRand; OpMix 3; OpRand] 0x8001 < 65536.
Proof.
  split; [lia|].
  destruct (lfsr_state_stays_nonzero_under_all_calls
              [OpMix 1; OpRand; OpMix 3; OpRand] 0x8001) as [H _]; [lia|].
  apply (H [OpMix 1; OpRand; OpMix 3; OpRand] []). reflexivity.
Defined.

(** X3: on 16-bit states [mix_rand] with a given sample is its own
    inverse: mixing the same sample twice gives the state back, so no
    state is ever lost by mixing (two states never merge). *)
Theorem mix_rand_is_an_involution (x s : Z) :
  0 <= s < 65536 ->
  LFSR.mix_rand x (LFSR.mix_rand x s) = s
  /\ (forall t, 0 <= t < 65536 ->
       LFSR.mix_rand x s = LFSR.mix_rand x t -> s = t).
Proof.
  assert (Inv : forall u, 0 <= u < 65536 ->
                          LFSR.mix_rand x (LFSR.mix_rand x u) = u).
  { intros u Hu.
    pose proof (mix_rand_range x u Hu) as Hr.
    rewrite (mix_rand_unfold x (LFSR.mix_rand x u)) by exact Hr.
    unfold LFSR.flips. rewrite !mix_rand_bits by exact Hu.
    cbn [Z.eqb Pos.eqb orb andb]. rewrite !andb_true_r.
    rewrite mix_rand_unfold by exact Hu.
    unfold LFSR.flips.
    destruct (Z.testbit x 0); cbn [andb]; [|reflexivity].
    destruct (Z.testbit u 15), (Z.testbit u 3); cbn [xorb negb andb];
      try reflexivity.
    all: rewrite Z.lxor_assoc, Z.lxor_nilpotent, Z.lxor_0_r; reflexivity. }
  intros Hs. split; [apply Inv; exact Hs|].
  intros t Ht E. rewrite <- (Inv s Hs), <- (Inv t Ht), E. reflexivity.
Qed.

Lemma mix_rand_is_an_involution_witness :
  0 <= 0x8001 < 65536
  /\ LFSR.mix_rand 0xFF (LFSR.mix_rand 0xFF 0x8001) = 0x8001.
Proof.
  split; [lia|].
  destruct (mix_rand_is_an_involution 0xFF 0x8001) as [E _]; [lia|exact E].
Defined.

Lemma shift_new_bit (s : Z) :
  LFSR.shift s = u16 (Z.lor (u16 (Z.shiftl s 1)) (b2z (LFSR.feedback s))).
Proof.
  unfold LFSR.shift, LFSR.feedback. rewrite !land_pow2_eqb by lia.
  destruct (Z.testbit s 15), (Z.testbit s 13), (Z.testbit s 12),
    (Z.testbit s 10); reflexivity.
Qed.

Lemma shift_bits (s j : Z) :
  0 <= j ->
  Z.testbit (LFSR.shift s) j
  = (j <? 16) && (if j =? 0 then LFSR.feedback s else Z.testbit s (j - 1)).
Proof.
  intros Hj. rewrite shift_new_bit.
  rewrite testbit_u16, Z.lor_spec, testbit_u16, testbit_b2z by lia.
  destruct (Z.ltb_spec j 16); cbn [andb]; [|reflexivity].
  destruct (Z.eqb_spec j 0) as [->|Hne].
  - rewrite Z.shiftl_spec by lia. rewrite Z.testbit_neg_r by lia.
    rewrite andb_true_r. reflexivity.
  - rewrite Z.shiftl_spec by lia. rewrite andb_false_r, orb_false_r.
    reflexivity.
Qed.

Lemma iter_shift_bits (k : nat) (s i : Z) :
  0 <= i -> i + Z.of_nat k < 16 ->
  Z.testbit (Nat.iter k LFSR.shift s) (i + Z.of_nat k) = Z.testbit s i.
Proof.
  revert i. induction k as [|k IH]; intros i Hi Hk.
  - cbn [Nat.iter]. f_equal. lia.
  - rewrite Nat.iter_succ, shift_bits by lia.
    destruct (Z.ltb_spec (i + Z.of_nat (S k)) 16); [|lia].
    destruct (Z.eqb_spec (i + Z.of_nat (S k)) 0); [lia|].
    cbn [andb].
    replace (i + Z.of_nat (S k) - 1) with (i + Z.of_nat k) by lia.
    apply IH; lia.
Qed.

(** X4: a call of [rand_byte] moves the low byte of the (guarded) state
    into the high byte and fills the low byte with eight fresh feedback
    bits, the first one computed ending up in bit 7 and the last one in
    bit 0; the byte returned consists of exactly these eight bits. *)
Theorem rand_byte_shifts_in_eight_feedback_bits (s : Z) (k : nat) :
  (k < 8)%nat ->
  let s0 := LFSR.guard s in
  Z.testbit (snd (LFSR.rand_byte s)) (Z.of_nat k + 8) = Z.testbit s0 (Z.of_nat k)
  /\ Z.testbit (snd (LFSR.rand_byte s)) (7 - Z.of_nat k)
     = LFSR.feedback (Nat.iter k LFSR.shift s0)
  /\ Z.testbit (fst (LFSR.rand_byte s)) (7 - Z.of_nat k)
     = LFSR.feedback (Nat.iter k LFSR.shift s0).
Proof.
  intros Hk s0. rewrite rand_byte_unfold. cbn [fst snd]. fold s0.
  rewrite <- iter_shift_step.
  assert (F : Z.testbit (Nat.iter 8 LFSR.shift s0) (7 - Z.of_nat k)
              = LFSR.feedback (Nat.iter k LFSR.shift s0)).
  { replace 8%nat with ((7 - k) + S k)%nat by lia.
    rewrite Nat.iter_add.
    replace (7 - Z.of_nat k) with (0 + Z.of_nat (7 - k)) by lia.
    rewrite iter_shift_bits by lia.
    rewrite Nat.iter_succ, shift_bits by lia. reflexivity. }
  split; [|split].
  - change 8 with (Z.of_nat 8). apply iter_shift_bits; lia.
  - exact F.
  - rewrite testbit_u8 by lia.
    destruct (Z.ltb_spec (7 - Z.of_nat k) 8); [|lia]. exact F.
Qed.

Lemma rand_byte_shifts_in_eight_feedback_bits_witness :
  Z.testbit (snd (LFSR.rand_byte 0xACE1)) (Z.of_nat 3 + 8)
  = Z.testbit (LFSR.guard 0xACE1) (Z.of_nat 3).
Proof.
  destruct (rand_byte_shifts_in_eight_feedback_bits 0xACE1 3) as [E _];
    [lia|exact E].
Defined.
